(** * Multi-model OCR verification: consensus voting of [scripts/ocr_verify.py]

    A shallow embedding of the text alignment, the per-position vote, the
    result assembly, the report and the engine dispatch of
    [scripts/ocr_verify.py], with the two adapter checks of [scripts/ocr.py]
    the dispatch relies on.

    Conventions of the embedding.
    - A Python [str] is a [string]; the tokenizer is modelled on ASCII text
      ([str.lower] folds [A-Z], [\w] is [[A-Za-z0-9_]]).
    - A Python [dict] is an association list in insertion order with
      pairwise distinct keys: [Counter.most_common], [list(d.items())[0]]
      and [list(d.values())[0]] all depend on that order.
    - A Python [float] that the code computes as a quotient of two word
      counts, or copies from an engine, is a rational of [Q].  The quotient
      [high_count / total_words] is correctly rounded and rounding is
      monotone, so the test [> 0.8] on doubles agrees with the test on
      rationals for every document of fewer than 10^15 positions.
    - Exceptions are values of [exn]; code that can raise returns in the
      monad [M], which also threads the log of adapter invocations. *)

From Stdlib Require Import List String Ascii Bool Arith Lia ZArith QArith.
From Stdlib Require Import Permutation Sorted DecimalString.
Import ListNotations.
Local Open Scope string_scope.
Local Open Scope nat_scope.
Local Open Scope list_scope.

Set Implicit Arguments.

(** ** Python runtime pieces used by the script *)

Module Py.

(** [dict]: insertion-ordered association list. *)
Definition dict (V : Type) : Type := list (string * V).

Definition keys {V} (d : dict V) : list string := map fst d.
Definition values {V} (d : dict V) : list V := map snd d.

(** [d.get(k)] / [d[k]]: the entry stored under [k]. *)
Fixpoint get {V} (d : dict V) (k : string) : option V :=
  match d with
  | [] => None
  | (k', v) :: d' => if String.eqb k k' then Some v else get d' k
  end.

(** [k in d] for a dict, [x in xs] for a list, tuple or set of strings. *)
Definition mem {V} (k : string) (d : dict V) : bool :=
  match get d k with Some _ => true | None => false end.

Definition contains (x : string) (xs : list string) : bool :=
  existsb (String.eqb x) xs.

(** Truth value of a string: the empty string is false. *)
Definition truthy (s : string) : bool :=
  match s with EmptyString => false | String _ _ => true end.

(** [str(n)] for a non-negative integer. *)
Definition str (n : nat) : string := NilEmpty.string_of_uint (Nat.to_uint n).

(** [sep.join(xs)]. *)
Definition join (sep : string) (xs : list string) : string :=
  String.concat sep xs.

(** [set(xs)]: the distinct elements; [len(set(xs))] is its length. *)
Fixpoint distinct (xs : list string) : list string :=
  match xs with
  | [] => []
  | x :: xs' => if contains x xs' then distinct xs' else x :: distinct xs'
  end.

(** [enumerate(xs)]. *)
Definition enumerate {A} (xs : list A) : list (nat * A) :=
  combine (seq 0 (List.length xs)) xs.

(** [not xs] for a list or dict: emptiness. *)
Definition is_empty {A} (xs : list A) : bool :=
  match xs with [] => true | _ :: _ => false end.

(** [Counter(xs)]: counts stored in order of first occurrence. *)
Fixpoint incr (w : string) (c : list (string * nat)) : list (string * nat) :=
  match c with
  | [] => [(w, 1)]
  | (w', n) :: c' =>
      if String.eqb w w' then (w', S n) :: c' else (w', n) :: incr w c'
  end.

Definition Counter (xs : list string) : list (string * nat) :=
  fold_left (fun c w => incr w c) xs [].

(** [c.most_common(1)]: [heapq.nlargest(1, ...)] is [max] by count, and
    [max] keeps the first of several maximal items. *)
Fixpoint max_by_count (best : string * nat) (c : list (string * nat))
  : string * nat :=
  match c with
  | [] => best
  | x :: c' => max_by_count (if snd best <? snd x then x else best) c'
  end.

Definition most_common_1 (c : list (string * nat)) : list (string * nat) :=
  match c with
  | [] => []
  | x :: c' => [max_by_count x c']
  end.

(** [str.lower] on ASCII. *)
Definition is_upper (c : ascii) : bool :=
  let n := nat_of_ascii c in (65 <=? n) && (n <=? 90).

Definition lower_char (c : ascii) : ascii :=
  if is_upper c then ascii_of_nat (nat_of_ascii c + 32) else c.

Fixpoint lower (s : string) : string :=
  match s with
  | EmptyString => EmptyString
  | String c s' => String (lower_char c) (lower s')
  end.

(** The class [\w] on ASCII: letters, digits and the underscore. *)
Definition is_word (c : ascii) : bool :=
  let n := nat_of_ascii c in
  ((48 <=? n) && (n <=? 57)) || ((65 <=? n) && (n <=? 90))
  || ((97 <=? n) && (n <=? 122)) || (n =? 95).

(** [re.findall(r'\b\w+\b', s)]: [\w+] is greedy and must start and end
    at a word boundary, so the matches are the maximal runs of word
    characters, left to right.  [cur] is the run being read. *)
Definition flush (cur : string) : list string :=
  if truthy cur then [cur] else [].

Fixpoint word_runs (cur : string) (s : string) : list string :=
  match s with
  | EmptyString => flush cur
  | String c s' =>
      if is_word c then word_runs (cur ++ String c EmptyString)%string s'
      else flush cur ++ word_runs EmptyString s'
  end.

Definition findall_words (s : string) : list string := word_runs EmptyString s.

End Py.

Import Py.

(** ** Data classes *)

Record EngineResult := mkEngineResult {
  engine : string;
  text : string;
  confidence : Q;
  error : option string
}.

Definition success (r : EngineResult) : bool :=
  match error r with None => true | Some _ => false end.

Record WordComparison := mkWordComparison {
  position : nat;
  readings : dict string;
  chosen : option string;
  agreement : string;
  wc_confidence : string;
  reason : string
}.

Record VerificationResult := mkVerificationResult {
  source_file : string;
  models_used : list string;
  consensus_text : string;
  overall_confidence : Q;
  total_words : nat;
  high_confidence_words : nat;
  medium_confidence_words : nat;
  low_confidence_words : nat;
  disagreements : list WordComparison;
  engine_results : dict EngineResult
}.

(** ** Text alignment and comparison *)

Definition tokenize (t : string) : list string := findall_words (lower t).

(** [max(len(words) for words in tokenized.values()) if tokenized else 0] *)
Definition max_len (tokenized : dict (list string)) : nat :=
  fold_right Nat.max 0 (map (fun ws => List.length ws) (values tokenized)).

(** One row: every engine's word at position [i], padded with [""]. *)
Definition row_at (tokenized : dict (list string)) (i : nat) : dict string :=
  map (fun ew => (fst ew, nth i (snd ew) "")) tokenized.

Definition align_texts (texts : dict string) : list (dict string) :=
  let tokenized := map (fun et => (fst et, tokenize (snd et))) texts in
  map (row_at tokenized) (seq 0 (max_len tokenized)).

Definition valid_readings (rd : dict string) : dict string :=
  filter (fun kv => truthy (snd kv)) rd.

Definition ocr_engines : list string := ["docai"; "vision"].
Definition llm_engines : list string := ["claude"; "gpt"].

Definition calculate_consensus (rd : dict string)
  : option string * string * string * string :=
  let valid := valid_readings rd in
  if is_empty valid then (None, "0/0", "low", "No readings") else
  let word_counts := Counter (values valid) in
  let total := List.length valid in
  let most_common := hd ("", 0) (most_common_1 word_counts) in
  let chosen_word := fst most_common in
  let count := snd most_common in
  let agreement := (str count ++ "/" ++ str total)%string in
  if count =? total then
    (Some chosen_word, agreement, "high",
     ("All " ++ str total ++ " models agree")%string)
  else if 3 <=? count then
    let agreeing :=
      keys (filter (fun kv => String.eqb (snd kv) chosen_word) valid) in
    (Some chosen_word, agreement, "high",
     ("Majority agreement (" ++ join ", " agreeing ++ ")")%string)
  else if (count =? 2) && (3 <=? total) then
    let ocr_votes := filter (fun kv => contains (fst kv) ocr_engines) valid in
    let llm_votes := filter (fun kv => contains (fst kv) llm_engines) valid in
    if (List.length (distinct (values ocr_votes)) =? 1)
       && negb (is_empty ocr_votes) then
      (Some (hd "" (values ocr_votes)), agreement, "medium",
       "OCR engines agree, LLMs differ")
    else if (List.length (distinct (values llm_votes)) =? 1)
            && negb (is_empty llm_votes) then
      let llm_word := hd "" (values llm_votes) in
      if String.eqb llm_word chosen_word then
        (Some chosen_word, agreement, "medium",
         "LLMs agree, OCR engines differ")
      else
        (Some chosen_word, agreement, "medium", "Split vote - majority wins")
    else
      (Some chosen_word, agreement, "medium", "Split vote - majority wins")
  else
    (None, agreement, "low", "No consensus - flagged for human review").

(** ** Verification engine: building the consensus *)

Definition successful (engine_results : dict EngineResult) : dict EngineResult :=
  filter (fun kv => success (snd kv)) engine_results.

(** Truth value of an [Optional[str]]: [None] and [""] are false. *)
Definition chosen_truthy (c : option string) : bool :=
  match c with Some w => truthy w | None => false end.

Definition engine_priority : list string := ["docai"; "vision"; "claude"; "gpt"].

(** The inner [for engine in [...]: if ...: append; break]. *)
Definition first_available (rd : dict string) : option string :=
  match
    find (fun e => mem e rd && truthy (match get rd e with Some w => w | None => "" end))
         engine_priority
  with
  | Some e => get rd e
  | None => None
  end.

(** The variables the main loop of [_build_consensus] updates. *)
Record loop_state := mkLoop {
  consensus_words : list string;
  disagreements_acc : list WordComparison;
  high_count : nat;
  medium_count : nat;
  low_count : nat
}.

Definition loop_init : loop_state := mkLoop [] [] 0 0 0.

Definition loop_body (st : loop_state) (ir : nat * dict string) : loop_state :=
  let i := fst ir in
  let rd := snd ir in
  let '(chosen, agreement, confidence, reason) := calculate_consensus rd in
  let high := if String.eqb confidence "high"
              then high_count st + 1 else high_count st in
  let medium := if String.eqb confidence "high" then medium_count st
                else if String.eqb confidence "medium"
                     then medium_count st + 1 else medium_count st in
  let low := if String.eqb confidence "high" then low_count st
             else if String.eqb confidence "medium" then low_count st
                  else low_count st + 1 in
  let words :=
    if chosen_truthy chosen
    then consensus_words st ++ [match chosen with Some w => w | None => "" end]
    else match first_available rd with
         | Some w => consensus_words st ++ [w]
         | None => consensus_words st
         end in
  let unique_readings := distinct (filter truthy (values rd)) in
  let dis :=
    if 1 <? List.length unique_readings
    then disagreements_acc st
         ++ [mkWordComparison i rd chosen agreement confidence reason]
    else disagreements_acc st in
  mkLoop words dis high medium low.

Definition Qgt_bool (x y : Q) : bool := negb (Qle_bool x y).

Definition nat_div (a b : nat) : Q :=
  (inject_Z (Z.of_nat a) / inject_Z (Z.of_nat b))%Q.

Definition _build_consensus (source_file : string)
  (engine_results : dict EngineResult) : VerificationResult :=
  let successful := successful engine_results in
  if is_empty successful then
    mkVerificationResult source_file (keys engine_results) "" 0%Q 0 0 0 0 []
      engine_results
  else if List.length successful =? 1 then
    match successful with
    | (_, result) :: _ =>
        mkVerificationResult source_file (keys engine_results)
          (text result) (confidence result)
          (List.length (tokenize (text result))) 0 0
          (List.length (tokenize (text result))) [] engine_results
    | [] =>
        mkVerificationResult source_file (keys engine_results) "" 0%Q 0 0 0 0 []
          engine_results
    end
  else
    let texts := map (fun kv => (fst kv, text (snd kv))) successful in
    let aligned := align_texts texts in
    let st := fold_left loop_body (enumerate aligned) loop_init in
    let total_words := List.length aligned in
    let overall_confidence :=
      if 0 <? total_words then nat_div (high_count st) total_words else 0%Q in
    let consensus_text := join " " (consensus_words st) in
    let consensus_text :=
      if Qgt_bool overall_confidence 0.8 && mem "docai" successful then
        match get successful "docai" with
        | Some r => text r
        | None => consensus_text
        end
      else if Qgt_bool overall_confidence 0.8 && mem "vision" successful then
        match get successful "vision" with
        | Some r => text r
        | None => consensus_text
        end
      else consensus_text in
    mkVerificationResult source_file (keys engine_results) consensus_text
      overall_confidence total_words (high_count st) (medium_count st)
      (low_count st) (disagreements_acc st) engine_results.

(** ** Report generation *)

(** One entry of ["engine_status"]; the rounded ["confidence"] is a
    formatting of a double and is left out, as is the rounded
    ["overall_confidence"] of the report. *)
Record EngineStatus := mkEngineStatus {
  st_success : bool;
  st_chars : nat;
  st_error : option string
}.

Record Report := mkReport {
  rep_source_file : string;
  rep_models_used : list string;
  rep_total_words : nat;
  rep_high_confidence : nat;
  rep_medium_confidence : nat;
  rep_low_confidence : nat;
  rep_disagreement_count : nat;
  rep_engine_status : dict EngineStatus;
  rep_disagreements : list WordComparison
}.

Definition generate_report (result : VerificationResult) : Report :=
  mkReport (source_file result) (models_used result) (total_words result)
    (high_confidence_words result) (medium_confidence_words result)
    (low_confidence_words result)
    (List.length (disagreements result))
    (map (fun nr =>
            let r := snd nr in
            (fst nr,
             mkEngineStatus (success r)
               (if success r then String.length (text r) else 0) (error r)))
         (engine_results result))
    (firstn 50 (disagreements result)).

(** ** Exceptions and adapter invocations *)

(** A raised exception: its class and its message ([str(e)]). *)
Inductive exn := Exn (kind : string) (msg : string).

Definition exn_str (e : exn) : string := let 'Exn _ m := e in m.

(** One adapter invocation: the engine's name and the path handed to it. *)
Definition call : Type := string * string.

(** Computations that may raise and that log adapter invocations. *)
Definition M (A : Type) : Type := list call -> (exn + A) * list call.

Definition ret {A} (a : A) : M A := fun log => (inr a, log).

Definition raise {A} (e : exn) : M A := fun log => (inl e, log).

Definition bind {A B} (m : M A) (k : A -> M B) : M B :=
  fun log =>
    match m log with
    | (inr a, log') => k a log'
    | (inl e, log') => (inl e, log')
    end.

(** [try: m  except Exception as e: h e]. *)
Definition try_except {A} (m : M A) (h : exn -> M A) : M A :=
  fun log =>
    match m log with
    | (inr a, log') => (inr a, log')
    | (inl e, log') => h e log'
    end.

Notation "x <- m ;; k" := (bind m (fun x => k))
  (at level 61, m at next level, right associativity).

(** A configured client: [client.extract_text(path)] returns an object or
    raises.  [verify] reads a dedicated OCR client's [OCRResult] through its
    attributes [text] and [confidence] only, which an [EngineResult] has as
    well, so one record stands for both. *)
Definition client : Type := string -> exn + EngineResult.

Definition extract_text (engine_name : string) (c : client) (image_path : string)
  : M EngineResult :=
  fun log => (c image_path, log ++ [(engine_name, image_path)]).

(** *** The adapters *)

Definition SUPPORTED_TYPES : dict string :=
  [(".jpg", "image/jpeg"); (".jpeg", "image/jpeg"); (".png", "image/png");
   (".gif", "image/gif"); (".webp", "image/webp"); (".bmp", "image/bmp");
   (".tiff", "image/tiff"); (".tif", "image/tiff"); (".pdf", "application/pdf")].

Definition media_types : dict string :=
  [(".jpg", "image/jpeg"); (".jpeg", "image/jpeg"); (".png", "image/png");
   (".gif", "image/gif"); (".webp", "image/webp")].

(** [Path(p).name]: the text after the last ['/']. *)
Fixpoint path_name (acc : string) (p : string) : string :=
  match p with
  | EmptyString => acc
  | String c p' =>
      if Ascii.eqb c "/" then path_name EmptyString p'
      else path_name (acc ++ String c EmptyString)%string p'
  end.

(** [name[name.rfind('.'):]] when [name] has a dot. *)
Fixpoint from_last_dot (name : string) : option string :=
  match name with
  | EmptyString => None
  | String c name' =>
      match from_last_dot name' with
      | Some t => Some t
      | None => if Ascii.eqb c "." then Some name else None
      end
  end.

(** [Path(p).suffix]: from the last dot of the name, when that dot is
    neither its first nor its last character. *)
Definition path_suffix (p : string) : string :=
  match path_name EmptyString p with
  | EmptyString => ""
  | String _ rest =>
      match from_last_dot rest with
      | Some t => if 1 <? String.length t then t else ""
      | None => ""
      end
  end.

(** [DocumentAIClient.extract_text] of [ocr.py]: the checks made before the
    document is sent; [api] stands for the size check, the request and the
    parsing of the response. *)
Definition DocumentAIClient_extract_text (fs_exists : string -> bool)
  (api : string -> string -> exn + EngineResult) : client :=
  fun image_path =>
    if negb (fs_exists image_path) then
      inl (Exn "FileNotFoundError" ("File not found: " ++ image_path)%string)
    else
      let suffix := lower (path_suffix image_path) in
      match get SUPPORTED_TYPES suffix with
      | Some mime_type =>
          if truthy mime_type then api image_path mime_type
          else inl (Exn "ValueError" ("Unsupported file type: " ++ suffix)%string)
      | None => inl (Exn "ValueError" ("Unsupported file type: " ++ suffix)%string)
      end.

(** [ClaudeVisionClient.extract_text] and [GPTVisionClient.extract_text]:
    an unknown suffix is sent as ["image/jpeg"], and every exception is
    turned into a failed result.  [api] stands for reading the file, the
    request and the extraction of the text from the response. *)
Definition llm_extract_text (engine_name : string)
  (api : string -> string -> exn + string) : client :=
  fun image_path =>
    let suffix := lower (path_suffix image_path) in
    let media_type :=
      match get media_types suffix with Some m => m | None => "image/jpeg" end in
    match api image_path media_type with
    | inr t => inr (mkEngineResult engine_name t 0.9 None)
    | inl e => inr (mkEngineResult engine_name "" 0 (Some (exn_str e)))
    end.

Definition ClaudeVisionClient_extract_text := llm_extract_text "claude".
Definition GPTVisionClient_extract_text := llm_extract_text "gpt".

(** *** [OCRVerificationEngine] *)

(** [OCRVerificationEngine.__init__]: the value of [self.clients], or the
    exception the constructor raises. *)
Definition add_client (name : string) (c : option client) (clients : dict client)
  : dict client :=
  match c with Some c => clients ++ [(name, c)] | None => clients end.

Definition configured_clients
  (vision_client docai_client claude_client gpt_client : option client)
  (enabled_engines : option (list string)) : dict client :=
  let clients :=
    add_client "gpt" gpt_client
      (add_client "claude" claude_client
         (add_client "docai" docai_client
            (add_client "vision" vision_client []))) in
  match enabled_engines with
  | Some (e :: es) => filter (fun kv => contains (fst kv) (e :: es)) clients
  | _ => clients
  end.

Definition OCRVerificationEngine_init
  (vision_client docai_client claude_client gpt_client : option client)
  (enabled_engines : option (list string)) : exn + dict client :=
  let clients :=
    configured_clients vision_client docai_client claude_client gpt_client
      enabled_engines in
  if is_empty clients then
    inl (Exn "ValueError" "At least one OCR engine must be configured")
  else inr clients.

(** The body of the loop over [self.clients.items()] in [verify]. *)
Definition run_engine (engine_name : string) (c : client) (image_path : string)
  : M EngineResult :=
  if contains engine_name ["docai"; "vision"] then
    try_except
      (result <- extract_text engine_name c image_path ;;
       ret (mkEngineResult engine_name (text result) (confidence result) None))
      (fun e => ret (mkEngineResult engine_name "" 0 (Some (exn_str e))))
  else extract_text engine_name c image_path.

Fixpoint run_engines (clients : dict client) (image_path : string)
  (engine_results : dict EngineResult) : M (dict EngineResult) :=
  match clients with
  | [] => ret engine_results
  | (engine_name, c) :: clients' =>
      r <- run_engine engine_name c image_path ;;
      run_engines clients' image_path (engine_results ++ [(engine_name, r)])
  end.

(** [OCRVerificationEngine.verify]; [fs_exists] is [Path.exists].  The two
    logging passes have no effect on the result and are left out. *)
Definition verify (fs_exists : string -> bool) (clients : dict client)
  (image_path : string) : M VerificationResult :=
  if negb (fs_exists image_path) then
    raise (Exn "FileNotFoundError" ("Image not found: " ++ image_path)%string)
  else
    engine_results <- run_engines clients image_path [] ;;
    ret (_build_consensus image_path engine_results).

(** ** Characterisations used by the statements *)

(** A row disagrees when more than one distinct non-empty word is read. *)
Definition disagrees (rd : dict string) : bool :=
  1 <? List.length (distinct (filter truthy (values rd))).

(** The [WordComparison] recorded for row [rd] at position [i]. *)
Definition comparison (ir : nat * dict string) : WordComparison :=
  let '(chosen, agreement, confidence, reason) := calculate_consensus (snd ir) in
  mkWordComparison (fst ir) (snd ir) chosen agreement confidence reason.

(** The confidence level voted for a row. *)
Definition tier (rd : dict string) : string :=
  snd (fst (calculate_consensus rd)).

(** The texts handed to [align_texts] by [_build_consensus]. *)
Definition successful_texts (engine_results : dict EngineResult) : dict string :=
  map (fun kv => (fst kv, text (snd kv))) (successful engine_results).

(** The loop variables of [_build_consensus] after the last position. *)
Definition vote_state (engine_results : dict EngineResult) : loop_state :=
  fold_left loop_body
    (enumerate (align_texts (successful_texts engine_results))) loop_init.

(** [enumerate] from a given start index. *)
Definition enumerate_from {A} (k : nat) (xs : list A) : list (nat * A) :=
  combine (seq k (List.length xs)) xs.

(** What one pass of the loop of [verify] stores for an engine, or the
    exception that escapes it. *)
Definition engine_reading (engine_name : string) (c : client)
  (image_path : string) : exn + EngineResult :=
  if contains engine_name ["docai"; "vision"] then
    match c image_path with
    | inr r => inr (mkEngineResult engine_name (text r) (confidence r) None)
    | inl e => inr (mkEngineResult engine_name "" 0 (Some (exn_str e)))
    end
  else c image_path.

(** [rs] are the readings the clients give for the image, none escaping. *)
Definition readings_for (clients : dict client) (image_path : string)
  (rs : dict EngineResult) : Prop :=
  Forall2 (fun kc nr =>
             fst nr = fst kc
             /\ engine_reading (fst kc) (snd kc) image_path = inr (snd nr))
          clients rs.

(** Clients as [main] configures them: a dedicated OCR client under
    ["docai"] or ["vision"], one of the two LLM clients under any other
    name. *)
Definition repository_clients (clients : dict client) : Prop :=
  forall name c, In (name, c) clients ->
    contains name ["docai"; "vision"] = true
    \/ exists engine_name api, c = llm_extract_text engine_name api.

(** The invocations [verify] logs for its clients. *)
Definition invocations (clients : dict client) (image_path : string)
  : list call :=
  map (fun kc => (fst kc, image_path)) clients.

(** The result for an image none of whose readings succeeded. *)
Definition empty_result (source : string) (results : dict EngineResult)
  : VerificationResult :=
  mkVerificationResult source (keys results) "" 0%Q 0 0 0 0 [] results.

(** All orders of a list: the insertion orders of a dict's items. *)
Fixpoint inserts {A} (x : A) (l : list A) : list (list A) :=
  match l with
  | [] => [[x]]
  | y :: l' => (x :: l) :: map (cons y) (inserts x l')
  end.

Fixpoint orders {A} (l : list A) : list (list A) :=
  match l with
  | [] => [[]]
  | x :: l' => flat_map (inserts x) (orders l')
  end.

(** ** Concrete inputs *)

Definition ok (name t : string) (c : Q) : EngineResult :=
  mkEngineResult name t c None.

Definition failed (name msg : string) : EngineResult :=
  mkEngineResult name "" 0 (Some msg).

Definition tie_row : dict string :=
  [("docai", "the"); ("vision", "the"); ("claude", "teh"); ("gpt", "teh")].

(** [n] copies of the word [w], separated by blanks. *)
Fixpoint words (n : nat) (w : string) : string :=
  match n with
  | 0 => ""
  | S n' => (w ++ " " ++ words n' w)%string
  end.

(** Two readings of 80 words that differ at every position. *)
Definition eighty_disagreements : dict EngineResult :=
  [("docai", ok "docai" (words 80 "a") 0.9);
   ("vision", ok "vision" (words 80 "b") 0.9)].

(** Two engines that both read a blank page. *)
Definition blank_page : dict EngineResult :=
  [("vision", ok "vision" "" 0.9); ("claude", ok "claude" "" 0.9)].

(** A row on which only one engine read a word. *)
Definition lone_vote_row : dict string := [("docai", "x"); ("vision", "")].

(** An image whose extension no adapter lists, and two adapters for it. *)
Definition odd_image : string := "scan.xyz".

Definition all_files (p : string) : bool := true.

Definition odd_clients : dict client :=
  [("docai",
    DocumentAIClient_extract_text all_files
      (fun _ _ => inr (ok "docai" "unused" 1)));
   ("claude", ClaudeVisionClient_extract_text (fun _ _ => inr "Dear Omi"))].

(** A client whose every call raises. *)
Definition broken_client (msg : string) : client :=
  fun _ => inl (Exn "RuntimeError" msg).

(** ** Further functions of the script *)

(** ASCII white space, as [\s] and [str.strip] see it. *)
Definition is_space (c : ascii) : bool :=
  let n := nat_of_ascii c in
  ((9 <=? n) && (n <=? 13)) || ((28 <=? n) && (n <=? 32)).


Fixpoint lstrip (s : string) : string :=
  match s with
  | EmptyString => EmptyString
  | String c s' => if is_space c then lstrip s' else s
  end.

Fixpoint rstrip (s : string) : string :=
  match s with
  | EmptyString => EmptyString
  | String c s' =>
      match rstrip s' with
      | EmptyString => if is_space c then EmptyString else String c EmptyString
      | r => String c r
      end
  end.

(** [s.strip()]. *)
Definition strip (s : string) : string := rstrip (lstrip s).


Definition is_some {A} (o : option A) : bool :=
  match o with Some _ => true | None => false end.

(** ** The command line of [main] *)

(** [s.split(sep)] for a one-character separator; [cur] is the piece being
    read. *)
Fixpoint split_on (sep : ascii) (cur : string) (s : string) : list string :=
  match s with
  | EmptyString => [cur]
  | String c s' =>
      if Ascii.eqb c sep then cur :: split_on sep EmptyString s'
      else split_on sep (cur ++ String c EmptyString)%string s'
  end.

(** [[e.strip() for e in args.engines.split(",")]]. *)
Definition parse_engines (engines : string) : list string :=
  map strip (split_on "," EmptyString engines).

Definition valid_engines : list string := ["docai"; "vision"; "claude"; "gpt"].

(** The first name for which [main] calls [parser.error], if any. *)
Definition unknown_engine (enabled_engines : list string) : option string :=
  find (fun e => negb (contains e valid_engines)) enabled_engines.

(** The clients [main] hands to the constructor: a client is built for an
    engine only when [--engines] names it and its credentials [v], [d],
    [c], [g] are present. *)
Definition main_clients (v d c g : option client)
  (enabled_engines : list string) : dict client :=
  configured_clients
    (if contains "vision" enabled_engines then v else None)
    (if contains "docai" enabled_engines then d else None)
    (if contains "claude" enabled_engines then c else None)
    (if contains "gpt" enabled_engines then g else None)
    (Some enabled_engines).

(** One pass of the batch loop of [main]: the body of its [try].
    [write_consensus] and [write_report] stand for the two [write_text]
    calls (the report is written only when a report directory was given);
    they return the exception raised, if any. *)
Definition batch_item (fs_exists : string -> bool) (clients : dict client)
  (write_consensus : string -> string -> option exn)
  (write_report : option (string -> Report -> option exn))
  (image_path : string) : M VerificationResult :=
  result <- verify fs_exists clients image_path ;;
  match write_consensus image_path (consensus_text result) with
  | Some e => raise e
  | None =>
      match write_report with
      | Some write =>
          match write image_path (generate_report result) with
          | Some e => raise e
          | None => ret result
          end
      | None => ret result
      end
  end.

(** The batch loop: what is logged for each image, the result or the
    exception caught. *)
Fixpoint batch (fs_exists : string -> bool) (clients : dict client)
  (write_consensus : string -> string -> option exn)
  (write_report : option (string -> Report -> option exn))
  (images : list string) : M (list (string * (exn + VerificationResult))) :=
  match images with
  | [] => ret []
  | image_path :: images' =>
      outcome <-
        try_except
          (result <- batch_item fs_exists clients write_consensus
                       write_report image_path ;;
           ret (inr result))
          (fun e => ret (inl e)) ;;
      rest <- batch fs_exists clients write_consensus write_report images' ;;
      ret ((image_path, outcome) :: rest)
  end.

(** ** [OCRProcessor] of [ocr.py] *)

Definition HANDWRITING_THRESHOLD : Q := 0.30.

(** The two clients of the processor; [R] is the type of an [OCRResult],
    which the processor only passes on. *)
Record VisionAPIClient (R : Type) := mkVisionAPIClient {
  vision_extract_text : string -> option (list string) -> exn + R;
  detect_handwriting_ratio : string -> exn + Q
}.

Record OCRProcessor (R : Type) := mkOCRProcessor {
  vision_client : option (VisionAPIClient R);
  documentai_client : option (string -> option (list string) -> exn + R)
}.

(** A call of a client method, logged under [label]. *)
Definition invoke {A} (label : string) (f : string -> exn + A)
  (image_path : string) : M A :=
  fun log => (f image_path, log ++ [(label, image_path)]).

Definition _detect_best_engine {R} (p : OCRProcessor R) (image_path : string)
  : M string :=
  match vision_client p with
  | None =>
      ret (if is_some (documentai_client p) then "documentai" else "vision")
  | Some vc =>
      match documentai_client p with
      | None => ret "vision"
      | Some _ =>
          try_except
            (ratio <- invoke "detect_handwriting_ratio"
                        (detect_handwriting_ratio vc) image_path ;;
             if Qgt_bool ratio HANDWRITING_THRESHOLD then ret "documentai"
             else ret "vision")
            (fun _ => ret "vision")
      end
  end.

Definition process {R} (fs_exists : string -> bool) (p : OCRProcessor R)
  (image_path : string) (engine : string)
  (language_hints : option (list string)) : M R :=
  if negb (fs_exists image_path) then
    raise (Exn "FileNotFoundError" ("File not found: " ++ image_path)%string)
  else
    let suffix := lower (path_suffix image_path) in
    if negb (mem suffix SUPPORTED_TYPES) then
      raise (Exn "ValueError" ("Unsupported file type: " ++ suffix)%string)
    else
      engine <- (if String.eqb engine "auto"
                 then _detect_best_engine p image_path else ret engine) ;;
      if String.eqb engine "documentai" then
        match documentai_client p with
        | None =>
            raise (Exn "ValueError"
                     ("Document AI not configured. Set "
                      ++ "GOOGLE_APPLICATION_CREDENTIALS, "
                      ++ "DOCUMENTAI_PROJECT_ID, and DOCUMENTAI_PROCESSOR_ID")%string)
        | Some c =>
            invoke "documentai" (fun path => c path language_hints) image_path
        end
      else
        match vision_client p with
        | None =>
            raise (Exn "ValueError"
                     "Vision API not configured. Set GOOGLE_API_KEY")
        | Some vc =>
            invoke "vision"
              (fun path => vision_extract_text vc path language_hints)
              image_path
        end.

(** What processing one image of a batch gives, taken alone. *)
Definition item_outcome (fs_exists : string -> bool) (clients : dict client)
  (write_consensus : string -> string -> option exn)
  (write_report : option (string -> Report -> option exn))
  (image_path : string) : exn + VerificationResult :=
  fst (batch_item fs_exists clients write_consensus write_report
         image_path []).

(** ** Further characterisations *)



(** The components of a vote. *)
Definition vote_chosen (rd : dict string) : option string :=
  fst (fst (fst (calculate_consensus rd))).

Definition vote_agreement (rd : dict string) : string :=
  snd (fst (fst (calculate_consensus rd))).

Definition vote_reason (rd : dict string) : string :=
  snd (calculate_consensus rd).

(** The most frequent word of a row and its number of votes. *)
Definition top_vote (rd : dict string) : string * nat :=
  hd ("", 0) (most_common_1 (Counter (values (valid_readings rd)))).

(** The count a [Counter] stores for a word, 0 when it has none. *)
Fixpoint stored_count (c : list (string * nat)) (w : string) : nat :=
  match c with
  | [] => 0
  | (w', n) :: c' => if String.eqb w w' then n else stored_count c' w
  end.

(** The token lists of the successful readings. *)
Definition successful_tokens (engine_results : dict EngineResult)
  : dict (list string) :=
  map (fun et => (fst et, tokenize (snd et))) (successful_texts engine_results).

(** The column of an engine in the aligned rows. *)
Definition column (e : string) (rows : list (dict string)) : list string :=
  map (fun row => match get row e with Some w => w | None => "" end) rows.


(** Whether [enabled_engines] lets an engine through: an absent or empty
    list lets every engine through. *)
Definition enabled_ok (enabled : option (list string)) (name : string) : bool :=
  match enabled with
  | Some (e :: es) => contains name (e :: es)
  | _ => true
  end.

(** The engines of the constructor in the order it registers them, each
    with the fact that a client was given for it. *)
Definition offered (v d c g : option client) : list (string * bool) :=
  [("vision", is_some v); ("docai", is_some d);
   ("claude", is_some c); ("gpt", is_some g)].

(** ** Proof automation *)

(** Evaluation of the vote on rows whose words are variables: comparisons
    of literals are computed, the others rewritten. *)
Ltac eqb_ground :=
  repeat match goal with
  | |- context [String.eqb ?a ?b] =>
      let v := eval vm_compute in (String.eqb a b) in
      match v with
      | true => change (String.eqb a b) with true
      | false => change (String.eqb a b) with false
      end
  end.

Ltac vote_step Hab Hba :=
  cbn -[String.eqb str];
  rewrite ?String.eqb_refl, ?Hab, ?Hba;
  eqb_ground.

(** Case analysis on every test of a vote. *)
Ltac vote_branches :=
  repeat match goal with
         | |- context [if ?c then _ else _] => destruct c eqn:?
         end.

(** ** Facts about the runtime pieces *)

Lemma Qgt_bool_iff (x y : Q) : Qgt_bool x y = true <-> (y < x)%Q.
Proof.
  unfold Qgt_bool. rewrite negb_true_iff. split; intro H.
  - apply Qnot_le_lt. intro Hle. apply Qle_bool_iff in Hle. congruence.
  - destruct (Qle_bool x y) eqn:E; [|reflexivity].
    apply Qle_bool_iff in E. exfalso. exact (Qlt_not_le _ _ H E).
Qed.

Lemma inserts_spec {A} (x : A) (l1 l2 : list A) :
  In (l1 ++ x :: l2) (inserts x (l1 ++ l2)).
Proof.
  induction l1 as [|y l1 IH]; simpl.
  - destruct l2; simpl; auto.
  - right. apply in_map. exact IH.
Qed.

(** Every order of the items of a dict is listed by [orders]. *)
Lemma orders_complete {A} (l l' : list A) :
  Permutation l l' -> In l' (orders l).
Proof.
  revert l'. induction l as [|x l IH]; intros l' HP.
  - apply Permutation_nil in HP. subst. simpl. auto.
  - destruct (Permutation_vs_cons_inv (Permutation_sym HP)) as (l1 & l2 & ->).
    apply Permutation_cons_app_inv in HP.
    simpl. apply in_flat_map. exists (l1 ++ l2). split.
    + apply IH. exact HP.
    + apply inserts_spec.
Qed.

Lemma successful_two (engine_results : dict EngineResult) :
  2 <= List.length (successful engine_results) ->
  is_empty (successful engine_results) = false
  /\ (List.length (successful engine_results) =? 1) = false.
Proof.
  intro H. destruct (successful engine_results) as [|a [|b l]]; simpl in *;
    try lia; auto.
Qed.

(** ** The vote at one position *)

(** C5: the row {docai: "the", vision: "the", claude: "teh", gpt: "teh"} is
    decided as chosen "the", agreement 2/4, tier medium, reason
    "OCR engines agree, LLMs differ", and the decision is the same for every
    insertion order of the four entries. *)
Theorem tie_break_ocr_pair_wins (rd : dict string) :
  Permutation tie_row rd ->
  calculate_consensus rd
  = (Some "the", "2/4", "medium", "OCR engines agree, LLMs differ").
Proof.
  intro HP. apply orders_complete in HP.
  unfold tie_row in HP. cbn [orders inserts flat_map map app] in HP.
  repeat (destruct HP as [<- | HP]; [vm_compute; reflexivity|]).
  destruct HP.
Qed.

Lemma tie_break_ocr_pair_wins_witness :
  Permutation tie_row tie_row
  /\ calculate_consensus tie_row
     = (Some "the", "2/4", "medium", "OCR engines agree, LLMs differ").
Proof.
  split; [apply Permutation_refl|].
  apply (tie_break_ocr_pair_wins (rd := tie_row)).
  apply Permutation_refl.
Defined.

(** ** Result assembly *)

(** C1: when exactly one reading succeeded, the consensus text is that
    reading's raw text, the overall confidence is its self-reported score,
    and all of its tokens are counted as low: high and medium are 0, low and
    the total are the token count. *)
Theorem single_success_fallback (source : string)
  (results : dict EngineResult) (name : string) (r : EngineResult) :
  successful results = [(name, r)] ->
  let res := _build_consensus source results in
  consensus_text res = text r
  /\ overall_confidence res = confidence r
  /\ high_confidence_words res = 0
  /\ medium_confidence_words res = 0
  /\ low_confidence_words res = List.length (tokenize (text r))
  /\ total_words res = List.length (tokenize (text r))
  /\ disagreements res = [].
Proof.
  intros H res. subst res. unfold _build_consensus. rewrite H. simpl.
  repeat split; reflexivity.
Qed.

Lemma single_success_fallback_witness :
  let results := [("docai", failed "docai" "timeout");
                  ("claude", ok "claude" "ABC DEF" 0.9)] in
  successful results = [("claude", ok "claude" "ABC DEF" 0.9)]
  /\ consensus_text (_build_consensus "page.jpg" results) = "ABC DEF"
  /\ low_confidence_words (_build_consensus "page.jpg" results) = 2.
Proof.
  intro results.
  assert (H : successful results = [("claude", ok "claude" "ABC DEF" 0.9)])
    by reflexivity.
  split; [exact H|].
  pose proof (single_success_fallback "page.jpg" results H) as T.
  cbv zeta in T. destruct T as (T1 & _ & _ & _ & T5 & _).
  split; [exact T1 | exact T5].
Defined.

(** C2: with at least two successful readings and an overall confidence
    (high positions over all positions) strictly above 0.8, the consensus
    text is the raw text of docai when docai succeeded, and otherwise the
    raw text of vision when vision succeeded. *)
Theorem trusted_engine_override (source : string)
  (results : dict EngineResult) :
  2 <= List.length (successful results) ->
  let res := _build_consensus source results in
  (0.8 < overall_confidence res)%Q ->
  (overall_confidence res
   == nat_div (high_confidence_words res) (total_words res))%Q
  /\ (forall r, get (successful results) "docai" = Some r ->
                consensus_text res = text r)
  /\ (get (successful results) "docai" = None ->
      forall r, get (successful results) "vision" = Some r ->
                consensus_text res = text r).
Proof.
  intros H2 res. subst res. unfold _build_consensus.
  destruct (successful_two results H2) as [E0 E1]. rewrite E0, E1.
  cbv zeta.
  set (aligned := align_texts _).
  set (st := fold_left loop_body (enumerate aligned) loop_init).
  set (conf := if 0 <? List.length aligned then _ else _).
  cbn [overall_confidence consensus_text high_confidence_words total_words].
  intro Hgt. apply Qgt_bool_iff in Hgt. rewrite Hgt. cbn [andb].
  split; [|split].
  - subst conf. destruct (0 <? List.length aligned) eqn:E; [reflexivity|].
    exfalso. apply Qgt_bool_iff in Hgt. revert Hgt. clear. intro H.
    apply Qlt_not_le in H. apply H. discriminate.
  - intros r Hr. unfold mem. rewrite Hr. reflexivity.
  - intros Hn r Hr. unfold mem. rewrite Hn, Hr. reflexivity.
Qed.

Lemma trusted_engine_override_witness :
  let results := [("vision", ok "vision" "Dear Omi, hello" 0.9);
                  ("docai", ok "docai" "Dear Omi; hello!" 0.9);
                  ("claude", ok "claude" "dear omi hello" 0.9)] in
  2 <= List.length (successful results)
  /\ (0.8 < overall_confidence (_build_consensus "page.jpg" results))%Q
  /\ consensus_text (_build_consensus "page.jpg" results) = "Dear Omi; hello!".
Proof.
  intro results.
  assert (H2 : 2 <= List.length (successful results)) by (simpl; lia).
  assert (Hc : (0.8 < overall_confidence (_build_consensus "page.jpg" results))%Q)
    by (vm_compute; reflexivity).
  split; [exact H2|]. split; [exact Hc|].
  destruct (trusted_engine_override "page.jpg" results H2 Hc) as (_ & T & _).
  exact (T (ok "docai" "Dear Omi; hello!" 0.9) eq_refl).
Defined.

(** ** Engine dispatch *)

Lemma run_engine_reading (engine_name : string) (c : client)
  (image_path : string) (log : list call) :
  run_engine engine_name c image_path log
  = (engine_reading engine_name c image_path,
     log ++ [(engine_name, image_path)]).
Proof.
  unfold run_engine, engine_reading, try_except, bind, extract_text, ret.
  destruct (contains engine_name ["docai"; "vision"]); [|reflexivity].
  destruct (c image_path); reflexivity.
Qed.

Lemma run_engines_readings (clients : dict client) (image_path : string) :
  forall (rs acc : dict EngineResult) (log : list call),
    readings_for clients image_path rs ->
    run_engines clients image_path acc log
    = (inr (acc ++ rs), log ++ invocations clients image_path).
Proof.
  induction clients as [|[name c] clients IH]; intros rs acc log HF;
    inversion HF as [|kc nr cl rs' [Hn Hr] HF' E1 E2]; subst.
  - unfold invocations. simpl. unfold ret. now rewrite !app_nil_r.
  - simpl in *. unfold bind. rewrite run_engine_reading, Hr.
    rewrite (IH rs' _ _ HF'). destruct nr as [n r]. simpl in *. subst n.
    unfold invocations. simpl. now rewrite <- !app_assoc.
Qed.

Lemma readings_for_exists (clients : dict client) (image_path : string)
  (P : EngineResult -> Prop) :
  (forall name c, In (name, c) clients ->
     exists r, engine_reading name c image_path = inr r /\ P r) ->
  exists rs, readings_for clients image_path rs
             /\ keys rs = keys clients
             /\ Forall (fun nr => P (snd nr)) rs.
Proof.
  induction clients as [|[name c] clients IH]; intro H.
  - exists []. repeat split; constructor.
  - destruct (H name c (or_introl eq_refl)) as (r & Hr & HP).
    destruct IH as (rs & HF & HK & HA).
    { intros n c' Hin. apply H. now right. }
    exists ((name, r) :: rs). repeat split.
    + constructor; [split; [reflexivity | exact Hr] | exact HF].
    + simpl. now rewrite HK.
    + constructor; assumption.
Qed.

Lemma successful_none (results : dict EngineResult) :
  Forall (fun nr => success (snd nr) = false) results ->
  successful results = [].
Proof.
  induction 1 as [|nr rs H _ IH]; [reflexivity|].
  unfold successful in *. simpl. now rewrite H.
Qed.

Lemma build_consensus_nothing (source : string) (results : dict EngineResult) :
  successful results = [] ->
  _build_consensus source results = empty_result source results.
Proof.
  intro H. unfold _build_consensus. rewrite H. reflexivity.
Qed.

(** C3 (amended): with no engine configured the constructor raises
    ValueError and there is no engine to call [verify] on; when no reading
    succeeded [_build_consensus] returns the empty result (empty text,
    confidence 0, all counts 0, no disagreements) without any error; and
    [verify] returns that result for an existing image all of whose engines
    failed, and raises FileNotFoundError for a missing image. *)
Theorem no_engine_behaviour :
  (forall v d c g enabled,
     configured_clients v d c g enabled = [] ->
     OCRVerificationEngine_init v d c g enabled
     = inl (Exn "ValueError" "At least one OCR engine must be configured"))
  /\ (forall v d c g enabled,
        configured_clients v d c g enabled <> [] ->
        OCRVerificationEngine_init v d c g enabled
        = inr (configured_clients v d c g enabled))
  /\ (forall source results,
        successful results = [] ->
        _build_consensus source results = empty_result source results)
  /\ (forall fs_exists clients image_path log,
        fs_exists image_path = true ->
        (forall name c, In (name, c) clients ->
           exists r, engine_reading name c image_path = inr r
                     /\ success r = false) ->
        exists results,
          keys results = keys clients
          /\ verify fs_exists clients image_path log
             = (inr (empty_result image_path results),
                log ++ invocations clients image_path))
  /\ (forall fs_exists clients image_path log,
        fs_exists image_path = false ->
        verify fs_exists clients image_path log
        = (inl (Exn "FileNotFoundError"
                  ("Image not found: " ++ image_path)%string), log)).
Proof.
  split; [|split; [|split; [|split]]].
  - intros v d c g enabled H. unfold OCRVerificationEngine_init.
    rewrite H. reflexivity.
  - intros v d c g enabled H. unfold OCRVerificationEngine_init.
    destruct (configured_clients v d c g enabled); [congruence | reflexivity].
  - exact build_consensus_nothing.
  - intros fs_exists clients image_path log Hex Hall.
    destruct (readings_for_exists clients image_path
                (fun r => success r = false) Hall) as (rs & HF & HK & HA).
    exists rs. split; [exact HK|].
    unfold verify, bind, ret. rewrite Hex. simpl.
    rewrite (run_engines_readings [] log HF). simpl.
    rewrite (build_consensus_nothing _ _ (successful_none HA)). reflexivity.
  - intros fs_exists clients image_path log Hex.
    unfold verify, raise. rewrite Hex. reflexivity.
Qed.

Lemma no_engine_behaviour_witness :
  OCRVerificationEngine_init None None None None (Some ["docai"; "gpt"])
  = inl (Exn "ValueError" "At least one OCR engine must be configured")
  /\ _build_consensus "page.jpg" [("vision", failed "vision" "HTTP 403")]
     = empty_result "page.jpg" [("vision", failed "vision" "HTTP 403")].
Proof.
  destruct no_engine_behaviour as (T1 & _ & T3 & _).
  split.
  - apply T1. reflexivity.
  - apply T3. reflexivity.
Defined.

(** C3 as stated fails: with no engine configured the constructor raises and
    [verify] returns nothing; with every reading failed [verify] returns
    normally, and no error accompanies the result. *)
Lemma no_engine_counterexample :
  OCRVerificationEngine_init None None None None None
  = inl (Exn "ValueError" "At least one OCR engine must be configured")
  /\ verify all_files [("vision", broken_client "HTTP 403")] "page.jpg" []
     = (inr (empty_result "page.jpg" [("vision", failed "vision" "HTTP 403")]),
        [("vision", "page.jpg")]).
Proof.
  split; reflexivity.
Qed.

Lemma repository_clients_read (clients : dict client) (image_path : string) :
  repository_clients clients ->
  exists results, readings_for clients image_path results.
Proof.
  intro H.
  destruct (@readings_for_exists clients image_path (fun _ => True))
    as (rs & HF & _).
  - intros name c Hin. unfold engine_reading.
    destruct (H name c Hin) as [-> | (n & api & ->)].
    + destruct (c image_path); eexists; split; auto.
    + destruct (contains name ["docai"; "vision"]);
        unfold llm_extract_text;
        destruct (api image_path _); eexists; split; auto.
  - exists rs. exact HF.
Qed.

(** C7 (amended): [verify] makes no check of the image extension.  For an
    existing image, whatever its extension, every configured engine is
    invoked once, in configuration order, and the result is built from their
    readings, which the adapters of the repository always deliver; the only
    immediate failure, with no engine invoked, is FileNotFoundError for a
    path that does not exist. *)
Theorem verify_dispatches_every_engine (fs_exists : string -> bool)
  (clients : dict client) (image_path : string) (log : list call) :
  (fs_exists image_path = true ->
   forall results,
     readings_for clients image_path results ->
     verify fs_exists clients image_path log
     = (inr (_build_consensus image_path results),
        log ++ invocations clients image_path))
  /\ (fs_exists image_path = true ->
      repository_clients clients ->
      exists res,
        verify fs_exists clients image_path log
        = (inr res, log ++ invocations clients image_path))
  /\ (fs_exists image_path = false ->
      verify fs_exists clients image_path log
      = (inl (Exn "FileNotFoundError"
                ("Image not found: " ++ image_path)%string), log)).
Proof.
  assert (Hrun : fs_exists image_path = true ->
                 forall results,
                   readings_for clients image_path results ->
                   verify fs_exists clients image_path log
                   = (inr (_build_consensus image_path results),
                      log ++ invocations clients image_path)).
  { intros Hex results HF. unfold verify, bind, ret. rewrite Hex. simpl.
    rewrite (run_engines_readings [] log HF). reflexivity. }
  split; [exact Hrun|]. split.
  - intros Hex Hrepo.
    destruct (repository_clients_read image_path Hrepo) as (results & HF).
    exists (_build_consensus image_path results). exact (Hrun Hex results HF).
  - intro Hex. unfold verify, raise. rewrite Hex. reflexivity.
Qed.

Lemma verify_dispatches_every_engine_witness :
  let results := [("docai", failed "docai" "Unsupported file type: .xyz");
                  ("claude", ok "claude" "Dear Omi" 0.9)] in
  all_files odd_image = true
  /\ readings_for odd_clients odd_image results
  /\ verify all_files odd_clients odd_image []
     = (inr (_build_consensus odd_image results),
        [("docai", odd_image); ("claude", odd_image)]).
Proof.
  intro results.
  assert (HF : readings_for odd_clients odd_image results).
  { repeat constructor. }
  split; [reflexivity|]. split; [exact HF|].
  exact (proj1 (verify_dispatches_every_engine all_files odd_clients odd_image [])
           eq_refl results HF).
Defined.

(** C7 as stated fails: the extension of "scan.xyz" is in neither adapter
    table, yet [verify] invokes both engines and returns a result. *)
Lemma unsupported_format_counterexample :
  get SUPPORTED_TYPES (lower (path_suffix odd_image)) = None
  /\ get media_types (lower (path_suffix odd_image)) = None
  /\ exists res,
       verify all_files odd_clients odd_image []
       = (inr res, [("docai", odd_image); ("claude", odd_image)])
       /\ consensus_text res = "Dear Omi".
Proof.
  split; [reflexivity|]. split; [reflexivity|].
  eexists. split; reflexivity.
Qed.

(** ** Counting votes *)

Lemma incr_fresh (w : string) (c : list (string * nat)) :
  ~ In w (map fst c) -> incr w c = c ++ [(w, 1)].
Proof.
  induction c as [|[w' n] c IH]; simpl; intro H; [reflexivity|].
  destruct (String.eqb_spec w w') as [->|_].
  - exfalso. apply H. now left.
  - rewrite IH; [reflexivity|]. intro Hin. apply H. now right.
Qed.

Lemma Counter_fresh (xs : list string) :
  forall c : list (string * nat),
    NoDup xs -> (forall x, In x xs -> ~ In x (map fst c)) ->
    fold_left (fun c w => incr w c) xs c = c ++ map (fun w => (w, 1)) xs.
Proof.
  induction xs as [|x xs IH]; intros c Hnd Hc; simpl.
  - now rewrite app_nil_r.
  - inversion Hnd as [|? ? Hx Hnd']; subst.
    rewrite incr_fresh by (apply Hc; now left).
    rewrite IH; [now rewrite <- app_assoc | exact Hnd' |].
    intros y Hy. rewrite map_app, in_app_iff. simpl.
    intros [Hin | [-> | []]].
    + exact (Hc y (or_intror Hy) Hin).
    + exact (Hx Hy).
Qed.

(** All words distinct: every count is 1. *)
Lemma Counter_NoDup (xs : list string) :
  NoDup xs -> Counter xs = map (fun w => (w, 1)) xs.
Proof.
  intro H. unfold Counter. rewrite Counter_fresh; auto.
Qed.

Lemma max_by_count_ones (best : string * nat) (xs : list string) :
  snd best = 1 -> max_by_count best (map (fun w => (w, 1)) xs) = best.
Proof.
  revert best. induction xs as [|x xs IH]; intros best Hb; simpl;
    [reflexivity|].
  rewrite Hb. simpl. apply IH. exact Hb.
Qed.

Lemma Counter_same (w : string) (xs : list string) :
  forall n, (forall x, In x xs -> x = w) ->
    fold_left (fun c v => incr v c) xs [(w, n)] = [(w, n + List.length xs)].
Proof.
  induction xs as [|x xs IH]; intros n H; simpl.
  - now rewrite Nat.add_0_r.
  - rewrite (H x (or_introl eq_refl)), String.eqb_refl.
    rewrite IH by (intros y Hy; apply H; now right).
    f_equal. f_equal. lia.
Qed.

(** All words equal: one count, the number of votes. *)
Lemma Counter_unanimous (w : string) (xs : list string) :
  xs <> [] -> (forall x, In x xs -> x = w) ->
  Counter xs = [(w, List.length xs)].
Proof.
  intros Hne H. destruct xs as [|x xs]; [congruence|].
  unfold Counter. simpl. rewrite (H x (or_introl eq_refl)).
  rewrite Counter_same by (intros y Hy; apply H; now right).
  reflexivity.
Qed.

(** C8 (amended): a row with at least two non-empty readings, all for
    different words, is decided as chosen null, agreement 1/n, tier low and
    reason "No consensus - flagged for human review". *)
Theorem total_disagreement (rd : dict string) :
  2 <= List.length (valid_readings rd) ->
  NoDup (values (valid_readings rd)) ->
  calculate_consensus rd
  = (None, ("1/" ++ str (List.length (valid_readings rd)))%string, "low",
     "No consensus - flagged for human review").
Proof.
  intros Hlen Hnd.
  assert (Hmc : hd ("", 0) (most_common_1 (Counter (values (valid_readings rd))))
                = (hd "" (values (valid_readings rd)), 1)).
  { rewrite (Counter_NoDup Hnd).
    destruct (valid_readings rd) as [|[k w] ws]; [simpl in Hlen; lia|].
    simpl. now rewrite max_by_count_ones. }
  unfold calculate_consensus. rewrite Hmc. cbn [fst snd].
  destruct (valid_readings rd) as [|kw1 [|kw2 valid]]; simpl in Hlen; try lia.
  cbn [is_empty].
  replace (1 =? List.length (kw1 :: kw2 :: valid)) with false
    by (symmetry; apply Nat.eqb_neq; simpl; lia).
  reflexivity.
Qed.

Lemma total_disagreement_witness :
  let rd := [("docai", "cat"); ("vision", "cot"); ("claude", "cut")] in
  2 <= List.length (valid_readings rd)
  /\ NoDup (values (valid_readings rd))
  /\ calculate_consensus rd
     = (None, "1/3", "low", "No consensus - flagged for human review").
Proof.
  intro rd.
  assert (H2 : 2 <= List.length (valid_readings rd)) by (simpl; lia).
  assert (Hnd : NoDup (values (valid_readings rd))).
  { simpl. repeat constructor; simpl; intuition discriminate. }
  split; [exact H2|]. split; [exact Hnd|].
  exact (total_disagreement rd H2 Hnd).
Defined.

(** C8 as stated fails on a row with a single non-empty reading: no word
    reaches count 2, yet the lone word is chosen with tier high. *)
Lemma lone_vote_counterexample :
  valid_readings lone_vote_row = [("docai", "x")]
  /\ NoDup (values (valid_readings lone_vote_row))
  /\ calculate_consensus lone_vote_row
     = (Some "x", "1/1", "high", "All 1 models agree").
Proof.
  split; [reflexivity|]. split; [|reflexivity].
  simpl. repeat constructor. intros [].
Qed.

(** C9: when the non-empty readings of a row are one dedicated OCR engine's
    word and a different word read by both claude and gpt, the chosen token
    is the OCR engine's word, with agreement 2/3, tier medium and reason
    "OCR engines agree, LLMs differ". *)
Theorem lone_ocr_vote_overrides_llm_pair (rd : dict string)
  (o w w' : string) :
  o = "docai" \/ o = "vision" ->
  w <> w' ->
  Permutation (valid_readings rd) [(o, w); ("claude", w'); ("gpt", w')] ->
  calculate_consensus rd
  = (Some w, "2/3", "medium", "OCR engines agree, LLMs differ").
Proof.
  intros Ho Hneq HP.
  assert (Hab : String.eqb w w' = false) by now apply String.eqb_neq.
  assert (Hba : String.eqb w' w = false)
    by (apply String.eqb_neq; congruence).
  apply Permutation_sym, orders_complete in HP.
  unfold calculate_consensus.
  cbn [orders inserts flat_map map app] in HP.
  destruct Ho as [-> | ->];
    repeat (destruct HP as [<- | HP];
            [ unfold Counter, ocr_engines, llm_engines, contains;
              repeat vote_step Hab Hba; try reflexivity |]);
    try destruct HP.
Qed.

Lemma lone_ocr_vote_overrides_llm_pair_witness :
  let rd := [("vision", "tbe"); ("docai", ""); ("claude", "the"); ("gpt", "the")] in
  ("vision" = "docai" \/ "vision" = "vision")
  /\ "tbe" <> "the"
  /\ Permutation (valid_readings rd)
       [("vision", "tbe"); ("claude", "the"); ("gpt", "the")]
  /\ calculate_consensus rd
     = (Some "tbe", "2/3", "medium", "OCR engines agree, LLMs differ").
Proof.
  intro rd.
  assert (Ho : "vision" = "docai" \/ "vision" = "vision") by (right; reflexivity).
  assert (Hn : "tbe" <> "the") by discriminate.
  assert (HP : Permutation (valid_readings rd)
                 [("vision", "tbe"); ("claude", "the"); ("gpt", "the")])
    by (simpl; apply Permutation_refl).
  split; [exact Ho|]. split; [exact Hn|]. split; [exact HP|].
  exact (lone_ocr_vote_overrides_llm_pair rd Ho Hn HP).
Defined.

(** ** Alignment *)

Lemma flush_truthy (cur w : string) : In w (flush cur) -> truthy w = true.
Proof.
  unfold flush. destruct (truthy cur) eqn:E; simpl; [|tauto].
  intros [<- | []]. exact E.
Qed.

(** Every match of [\b\w+\b] holds at least one character. *)
Lemma word_runs_truthy (s : string) :
  forall cur w, In w (word_runs cur s) -> truthy w = true.
Proof.
  induction s as [|c s IH]; intros cur w; simpl.
  - apply flush_truthy.
  - destruct (is_word c).
    + apply IH.
    + rewrite in_app_iff. intros [H | H].
      * exact (flush_truthy _ _ H).
      * exact (IH _ _ H).
Qed.

Lemma tokenize_truthy (t w : string) : In w (tokenize t) -> truthy w = true.
Proof. apply word_runs_truthy. Qed.

(** A position below [max_len] lies inside some engine's token list. *)
Lemma max_len_reached (tokenized : dict (list string)) (i : nat) :
  i < max_len tokenized ->
  exists e ws, In (e, ws) tokenized /\ i < List.length ws.
Proof.
  unfold max_len, values.
  induction tokenized as [|[e ws] tk IH]; simpl; [lia|].
  intro H. destruct (Nat.lt_ge_cases i (List.length ws)) as [Hl | Hg].
  - exists e, ws. auto.
  - destruct IH as (e' & ws' & Hin & Hlt); [lia|].
    exists e', ws'. auto.
Qed.

Lemma max_len_bound (tokenized : dict (list string)) (e : string)
  (ws : list string) :
  In (e, ws) tokenized -> List.length ws <= max_len tokenized.
Proof.
  unfold max_len, values.
  induction tokenized as [|[e' ws'] tk IH]; simpl; [tauto|].
  intros [H | H].
  - inversion H; subst. lia.
  - specialize (IH H). lia.
Qed.

Lemma aligned_row_has_word (texts : dict string) (row : dict string) :
  In row (align_texts texts) ->
  exists e w, In (e, w) row /\ truthy w = true.
Proof.
  unfold align_texts. rewrite in_map_iff. intros (i & <- & Hi).
  apply in_seq in Hi. destruct Hi as [_ Hi]. simpl in Hi.
  destruct (max_len_reached _ Hi) as (e & ws & Hin & Hlt).
  exists e, (nth i ws ""). split.
  - unfold row_at. apply in_map_iff. exists (e, ws). auto.
  - apply in_map_iff in Hin. destruct Hin as ([e' t] & Heq & _).
    inversion Heq; subst. apply (tokenize_truthy t). now apply nth_In.
Qed.

Lemma valid_readings_nonempty (row : dict string) (e w : string) :
  In (e, w) row -> truthy w = true -> valid_readings row <> [].
Proof.
  intros Hin Hw Hnil.
  assert (H : In (e, w) (valid_readings row))
    by (apply filter_In; auto).
  rewrite Hnil in H. exact H.
Qed.

(** Outside the branch for no readings, the reason is another one. *)
Lemma reason_of_a_vote (row : dict string) :
  valid_readings row <> [] ->
  snd (calculate_consensus row) <> "No readings".
Proof.
  intro H. unfold calculate_consensus.
  destruct (valid_readings row) as [|kv valid]; [congruence|].
  cbn [is_empty].
  repeat match goal with
         | |- context [if ?c then _ else _] => destruct c
         end;
    cbn [snd append]; discriminate.
Qed.

(** C10: when some text has a token, [align_texts] returns rows, and every
    row it returns holds a non-empty token for some engine, so that
    [calculate_consensus] never answers "No readings" on it. *)
Theorem aligned_rows_are_voted (texts : dict string) :
  (exists e t, In (e, t) texts /\ tokenize t <> []) ->
  align_texts texts <> []
  /\ forall row, In row (align_texts texts) ->
       (exists e w, In (e, w) row /\ truthy w = true)
       /\ valid_readings row <> []
       /\ snd (calculate_consensus row) <> "No readings"
       /\ calculate_consensus row <> (None, "0/0", "low", "No readings").
Proof.
  intros (e & t & Hin & Htok). split.
  - unfold align_texts.
    set (tokenized := map _ texts).
    assert (Hb : List.length (tokenize t) <= max_len tokenized).
    { apply (max_len_bound tokenized e). subst tokenized.
      apply in_map_iff. exists (e, t). auto. }
    destruct (tokenize t) as [|w ws]; [congruence|]. simpl in Hb.
    destruct (max_len tokenized); [lia|]. discriminate.
  - intros row Hrow.
    destruct (aligned_row_has_word texts row Hrow) as (e' & w & Hw & Ht).
    pose proof (valid_readings_nonempty row e' w Hw Ht) as Hv.
    pose proof (reason_of_a_vote row Hv) as Hr.
    repeat split; try assumption.
    + exists e', w. auto.
    + intro Heq. apply Hr. rewrite Heq. reflexivity.
Qed.

Lemma aligned_rows_are_voted_witness :
  let texts := [("docai", "Dear Omi"); ("claude", "")] in
  (exists e t, In (e, t) texts /\ tokenize t <> [])
  /\ align_texts texts <> [].
Proof.
  intro texts.
  assert (H : exists e t, In (e, t) texts /\ tokenize t <> []).
  { exists "docai", "Dear Omi". split; [left; reflexivity | discriminate]. }
  split; [exact H|].
  exact (proj1 (aligned_rows_are_voted texts H)).
Defined.

(** ** The loop over the aligned positions *)

Lemma loop_disagreements (l : list (nat * dict string)) :
  forall st,
    disagreements_acc (fold_left loop_body l st)
    = disagreements_acc st
      ++ map comparison (filter (fun ir => disagrees (snd ir)) l).
Proof.
  induction l as [|[i rd] l IH]; intro st; cbn [fold_left filter snd].
  - cbn [map]. now rewrite app_nil_r.
  - rewrite IH.
    assert (Hb : disagreements_acc (loop_body st (i, rd))
                 = if disagrees rd
                   then disagreements_acc st ++ [comparison (i, rd)]
                   else disagreements_acc st).
    { unfold loop_body, comparison, disagrees. cbn [fst snd].
      destruct (calculate_consensus rd) as [[[c a] conf] r].
      destruct (1 <? List.length (distinct (filter truthy (values rd))));
        reflexivity. }
    rewrite Hb. destruct (disagrees rd); cbn [map].
    + rewrite <- app_assoc. reflexivity.
    + reflexivity.
Qed.

Lemma loop_body_high (st : loop_state) (i : nat) (rd : dict string) :
  tier rd = "high" ->
  high_count (loop_body st (i, rd)) = high_count st + 1
  /\ medium_count (loop_body st (i, rd)) = medium_count st
  /\ low_count (loop_body st (i, rd)) = low_count st.
Proof.
  unfold tier, loop_body. cbn [fst snd].
  destruct (calculate_consensus rd) as [[[c a] conf] r]. cbn [fst snd].
  intros ->. repeat split.
Qed.

Lemma loop_all_high (l : list (nat * dict string)) :
  (forall ir, In ir l -> tier (snd ir) = "high") ->
  forall st,
    high_count (fold_left loop_body l st) = high_count st + List.length l
    /\ medium_count (fold_left loop_body l st) = medium_count st
    /\ low_count (fold_left loop_body l st) = low_count st.
Proof.
  induction l as [|[i rd] l IH]; intros H st; cbn [fold_left List.length].
  - repeat split; lia.
  - destruct (IH (fun ir Hin => H ir (or_intror Hin)) (loop_body st (i, rd)))
      as (Hh & Hm & Hl).
    destruct (loop_body_high st i rd (H (i, rd) (or_introl eq_refl)))
      as (Bh & Bm & Bl).
    rewrite Hh, Hm, Hl, Bh, Bm, Bl. repeat split; lia.
Qed.

Lemma build_consensus_votes (source : string) (results : dict EngineResult) :
  2 <= List.length (successful results) ->
  let res := _build_consensus source results in
  let aligned := align_texts (successful_texts results) in
  let st := vote_state results in
  total_words res = List.length aligned
  /\ high_confidence_words res = high_count st
  /\ medium_confidence_words res = medium_count st
  /\ low_confidence_words res = low_count st
  /\ disagreements res = disagreements_acc st
  /\ overall_confidence res
     = if 0 <? List.length aligned
       then nat_div (high_count st) (List.length aligned) else 0%Q.
Proof.
  intros H2 res aligned st. subst res aligned st.
  unfold _build_consensus, vote_state, successful_texts.
  destruct (successful_two results H2) as [E0 E1]. rewrite E0, E1.
  cbv zeta. cbn [total_words high_confidence_words medium_confidence_words
                 low_confidence_words disagreements overall_confidence].
  repeat split.
Qed.

(** ** Unanimous readings *)

Lemma map_over_positions {A B} (f : A -> B) (d : A) (l : list A) :
  map (fun i => f (nth i l d)) (seq 0 (List.length l)) = map f l.
Proof.
  induction l as [|x l IH]; simpl; [reflexivity|].
  f_equal. rewrite <- seq_shift, map_map. exact IH.
Qed.

(** The row in which every engine of [ks] reads [w]. *)
Lemma unanimous_row (ks : list string) (w : string) :
  ks <> [] -> truthy w = true ->
  calculate_consensus (map (fun k => (k, w)) ks)
  = (Some w,
     (str (List.length ks) ++ "/" ++ str (List.length ks))%string,
     "high",
     ("All " ++ str (List.length ks) ++ " models agree")%string).
Proof.
  intros Hne Hw. unfold calculate_consensus.
  assert (Hv : valid_readings (map (fun k => (k, w)) ks)
               = map (fun k => (k, w)) ks).
  { unfold valid_readings. apply forallb_filter_id. apply forallb_forall.
    intros x Hx. apply in_map_iff in Hx. destruct Hx as (k & <- & _).
    exact Hw. }
  rewrite Hv.
  assert (Hc : Counter (values (map (fun k => (k, w)) ks))
               = [(w, List.length ks)]).
  { rewrite (@Counter_unanimous w).
    - unfold values. now rewrite !length_map.
    - destruct ks; [congruence | discriminate].
    - unfold values. intros x Hx. rewrite map_map in Hx.
      apply in_map_iff in Hx. destruct Hx as (k & <- & _). reflexivity. }
  rewrite Hc. cbn [most_common_1 max_by_count hd fst snd].
  rewrite length_map, Nat.eqb_refl.
  destruct ks; [congruence | reflexivity].
Qed.

Lemma distinct_same (w : string) (xs : list string) :
  (forall x, In x xs -> x = w) -> List.length (distinct xs) <= 1.
Proof.
  induction xs as [|x xs IH]; intro H; simpl; [lia|].
  assert (IH' : List.length (distinct xs) <= 1)
    by (apply IH; intros y Hy; apply H; now right).
  destruct xs as [|y ys]; [simpl; lia|].
  replace (contains x (y :: ys)) with true; [exact IH'|].
  symmetry. unfold contains. simpl.
  rewrite (H x (or_introl eq_refl)), (H y (or_intror (or_introl eq_refl))).
  now rewrite String.eqb_refl.
Qed.

Lemma unanimous_row_agrees (ks : list string) (w : string) :
  disagrees (map (fun k => (k, w)) ks) = false.
Proof.
  unfold disagrees. apply Nat.ltb_ge. apply (@distinct_same w).
  intros x Hx. apply filter_In in Hx. destruct Hx as [Hx _].
  unfold values in Hx. rewrite map_map in Hx.
  apply in_map_iff in Hx. destruct Hx as (k & <- & _). reflexivity.
Qed.

Lemma max_len_same (texts : dict string) (toks : list string) :
  texts <> [] ->
  (forall e t, In (e, t) texts -> tokenize t = toks) ->
  max_len (map (fun et => (fst et, tokenize (snd et))) texts)
  = List.length toks.
Proof.
  intros Hne H. unfold max_len, values.
  induction texts as [|[e t] texts IH]; [congruence|].
  simpl. rewrite (H e t (or_introl eq_refl)).
  destruct texts as [|et texts]; [simpl; lia|].
  rewrite IH; [lia | discriminate |].
  intros e' t' Hin. apply (H e' t'). now right.
Qed.

(** Readings with the same tokens align into one unanimous row per token. *)
Lemma align_same_tokens (texts : dict string) (toks : list string) :
  texts <> [] ->
  (forall e t, In (e, t) texts -> tokenize t = toks) ->
  align_texts texts = map (fun w => map (fun k => (k, w)) (keys texts)) toks.
Proof.
  intros Hne H. unfold align_texts. rewrite (max_len_same Hne H).
  rewrite <- (map_over_positions
                (fun w => map (fun k => (k, w)) (keys texts)) "" toks).
  apply map_ext. intro i. unfold row_at, keys. rewrite !map_map.
  apply map_ext_in. intros [e t] Hin. cbn [fst snd].
  now rewrite (H e t Hin).
Qed.

Lemma filter_none {A} (f : A -> bool) (l : list A) :
  (forall x, In x l -> f x = false) -> filter f l = [].
Proof.
  induction l as [|x l IH]; intro H; simpl; [reflexivity|].
  rewrite (H x (or_introl eq_refl)). apply IH.
  intros y Hy. apply H. now right.
Qed.

Lemma length_enumerate {A} (xs : list A) :
  List.length (enumerate xs) = List.length xs.
Proof.
  unfold enumerate. rewrite length_combine, length_seq. apply Nat.min_id.
Qed.

Lemma in_enumerate {A} (xs : list A) (ir : nat * A) :
  In ir (enumerate xs) -> In (snd ir) xs.
Proof.
  destruct ir as [i r]. unfold enumerate. apply in_combine_r.
Qed.

Lemma nat_div_same (m : nat) : 0 < m -> (nat_div m m == 1)%Q.
Proof.
  intro H. unfold nat_div, Qdiv. apply Qmult_inv_r.
  unfold Qeq. simpl. lia.
Qed.

(** C6 (amended): when at least two readings succeeded and their texts
    tokenize to the same sequence, every aligned position is decided high
    with all voters agreeing, no disagreement is recorded, and the overall
    confidence is 1 when the sequence has a token; when the sequence is
    empty there is no position and the overall confidence is 0. *)
Theorem unanimous_readings (source : string) (results : dict EngineResult)
  (toks : list string) :
  2 <= List.length (successful results) ->
  (forall e t, In (e, t) (successful_texts results) -> tokenize t = toks) ->
  let res := _build_consensus source results in
  let n := List.length (successful results) in
  (forall row, In row (align_texts (successful_texts results)) ->
     exists w,
       calculate_consensus row
       = (Some w, (str n ++ "/" ++ str n)%string, "high",
          ("All " ++ str n ++ " models agree")%string))
  /\ total_words res = List.length toks
  /\ high_confidence_words res = List.length toks
  /\ medium_confidence_words res = 0
  /\ low_confidence_words res = 0
  /\ disagreements res = []
  /\ (toks <> [] -> (overall_confidence res == 1)%Q)
  /\ (toks = [] -> overall_confidence res = 0%Q).
Proof.
  intros H2 Hsame res n.
  set (texts := successful_texts results) in *.
  assert (Hlen : List.length (keys texts) = n).
  { subst texts n. unfold keys, successful_texts. now rewrite !length_map. }
  assert (Hne : texts <> []).
  { intro E. rewrite E in Hlen. simpl in Hlen. subst n. lia. }
  assert (Hk : keys texts <> []).
  { intro E. rewrite E in Hlen. simpl in Hlen. subst n. lia. }
  assert (Htr : forall w, In w toks -> truthy w = true).
  { destruct texts as [|[e t] tl] eqn:E; [congruence|].
    intros w Hw. apply (tokenize_truthy t).
    now rewrite (Hsame e t (or_introl eq_refl)). }
  pose proof (@align_same_tokens texts toks Hne Hsame) as Hal.
  assert (Hrow : forall row, In row (align_texts texts) ->
                 exists w, truthy w = true
                           /\ row = map (fun k => (k, w)) (keys texts)).
  { intros row Hin. rewrite Hal in Hin. apply in_map_iff in Hin.
    destruct Hin as (w & <- & Hw). exists w. auto. }
  assert (Hvote : forall row, In row (align_texts texts) ->
     exists w,
       calculate_consensus row
       = (Some w, (str n ++ "/" ++ str n)%string, "high",
          ("All " ++ str n ++ " models agree")%string)).
  { intros row Hin. destruct (Hrow row Hin) as (w & Hw & ->).
    exists w. rewrite (@unanimous_row (keys texts) w Hk Hw), Hlen. reflexivity. }
  subst texts.
  destruct (build_consensus_votes source results H2)
    as (Ht & Hh & Hm & Hl & Hd & Hc).
  fold res in Ht, Hh, Hm, Hl, Hd, Hc. unfold vote_state in Hh, Hm, Hl, Hd, Hc.
  assert (Htotal : List.length (align_texts (successful_texts results))
                   = List.length toks)
    by (rewrite Hal; apply length_map).
  destruct (@loop_all_high (enumerate (align_texts (successful_texts results))))
    with (st := loop_init) as (Lh & Lm & Ll).
  { intros ir Hin. apply in_enumerate in Hin.
    destruct (Hvote _ Hin) as (w & Hw). unfold tier. now rewrite Hw. }
  rewrite length_enumerate, Htotal in Lh.
  cbn [loop_init high_count medium_count low_count] in Lh, Lm, Ll.
  assert (Hhigh : high_confidence_words res = List.length toks)
    by (rewrite Hh, Lh; reflexivity).
  split; [exact Hvote|]. split; [now rewrite Ht|]. split; [exact Hhigh|].
  split; [now rewrite Hm|]. split; [now rewrite Hl|]. split; [|split].
  - rewrite Hd. rewrite loop_disagreements.
    cbn [loop_init disagreements_acc app].
    rewrite filter_none; [reflexivity|].
    intros ir Hin. apply in_enumerate in Hin.
    destruct (Hrow _ Hin) as (w & _ & ->). apply unanimous_row_agrees.
  - intro Hnil. rewrite Hc, Htotal. rewrite <- Hh, Hhigh.
    assert (Hpos : 0 < List.length toks)
      by (destruct toks; [congruence | simpl; lia]).
    replace (0 <? List.length toks) with true
      by (symmetry; now apply Nat.ltb_lt).
    now apply nat_div_same.
  - intros ->. rewrite Hc, Htotal. reflexivity.
Qed.

Lemma unanimous_readings_witness :
  let results := [("vision", ok "vision" "Dear Omi" 0.8);
                  ("docai", ok "docai" "dear, omi!" 0.9);
                  ("gpt", failed "gpt" "timeout");
                  ("claude", ok "claude" "DEAR OMI." 0.9)] in
  2 <= List.length (successful results)
  /\ (forall e t, In (e, t) (successful_texts results) ->
                  tokenize t = ["dear"; "omi"])
  /\ high_confidence_words (_build_consensus "page.jpg" results) = 2
  /\ (overall_confidence (_build_consensus "page.jpg" results) == 1)%Q.
Proof.
  intro results.
  assert (H2 : 2 <= List.length (successful results)) by (simpl; lia).
  assert (Hs : forall e t, In (e, t) (successful_texts results) ->
                           tokenize t = ["dear"; "omi"]).
  { intros e t Hin. simpl in Hin.
    destruct Hin as [H | [H | [H | []]]]; inversion H; reflexivity. }
  split; [exact H2|]. split; [exact Hs|].
  destruct (unanimous_readings "page.jpg" results H2 Hs)
    as (_ & _ & Hh & _ & _ & _ & Hc & _).
  split; [exact Hh|]. apply Hc. discriminate.
Defined.

(** C6 as stated fails on two readings of a blank page: their token
    sequences are identical (both empty), and the overall confidence is 0. *)
Lemma blank_page_counterexample :
  2 <= List.length (successful blank_page)
  /\ (forall e t, In (e, t) (successful_texts blank_page) -> tokenize t = [])
  /\ overall_confidence (_build_consensus "page.jpg" blank_page) = 0%Q
  /\ ~ (overall_confidence (_build_consensus "page.jpg" blank_page) == 1)%Q.
Proof.
  split; [simpl; lia|]. split.
  - intros e t Hin. simpl in Hin.
    destruct Hin as [H | [H | []]]; inversion H; reflexivity.
  - split; [reflexivity|]. vm_compute. discriminate.
Qed.

(** ** Disagreements and the report *)

Lemma in_enumerate_from {A} (xs : list A) :
  forall k i (x : A),
    In (i, x) (enumerate_from k xs)
    <-> k <= i /\ nth_error xs (i - k) = Some x.
Proof.
  unfold enumerate_from.
  induction xs as [|y xs IH]; intros k i x; simpl.
  - split; [tauto|]. intros [_ H]. destruct (i - k); discriminate.
  - rewrite IH. split.
    + intros [H | [Hk Hn]].
      * inversion H; subst. rewrite Nat.sub_diag. split; [lia | reflexivity].
      * split; [lia|]. replace (i - k) with (S (i - S k)) by lia. exact Hn.
    + intros [Hk Hn]. destruct (Nat.eq_dec i k) as [-> | Hne].
      * rewrite Nat.sub_diag in Hn. simpl in Hn. inversion Hn. now left.
      * right. split; [lia|].
        replace (i - k) with (S (i - S k)) in Hn by lia. exact Hn.
Qed.

Lemma in_enumerate_iff {A} (xs : list A) (i : nat) (x : A) :
  In (i, x) (enumerate xs) <-> nth_error xs i = Some x.
Proof.
  change (enumerate xs) with (enumerate_from 0 xs).
  rewrite in_enumerate_from, Nat.sub_0_r. split; [tauto|]. split; [lia|auto].
Qed.

Lemma positions_ascending {A} (f : nat * A -> bool) (xs : list A) :
  forall k,
    StronglySorted lt (map fst (filter f (enumerate_from k xs)))
    /\ Forall (fun i => k <= i) (map fst (filter f (enumerate_from k xs))).
Proof.
  unfold enumerate_from.
  induction xs as [|y xs IH]; intro k; simpl.
  - split; constructor.
  - destruct (IH (S k)) as [Hs Hf].
    assert (Hf' : Forall (fun i => k < i)
                    (map fst (filter f (combine (seq (S k) (List.length xs)) xs))))
      by (eapply Forall_impl; [|exact Hf]; simpl; intros; lia).
    destruct (f (k, y)); simpl.
    + split.
      * constructor; assumption.
      * constructor; [lia|]. eapply Forall_impl; [|exact Hf']. simpl. intros; lia.
    + split; [exact Hs|]. eapply Forall_impl; [|exact Hf']. simpl. intros; lia.
Qed.

Lemma comparison_position_readings (ir : nat * dict string) :
  position (comparison ir) = fst ir /\ readings (comparison ir) = snd ir.
Proof.
  unfold comparison. destruct (calculate_consensus (snd ir)) as [[[c a] conf] r].
  split; reflexivity.
Qed.

(** C4 (amended): the disagreements of a verification result are all the
    positions at which more than one distinct non-empty token was read, in
    ascending position order and without any cap (none when fewer than two
    readings succeeded); the cap of 50 is applied by [generate_report],
    whose disagreement entries are the first 50 of them, while its
    disagreement count is the uncapped number. *)
Theorem disagreements_and_report (source : string)
  (results : dict EngineResult) :
  let res := _build_consensus source results in
  let aligned := align_texts (successful_texts results) in
  (List.length (successful results) <= 1 -> disagreements res = [])
  /\ (2 <= List.length (successful results) ->
      disagreements res
      = map comparison
          (filter (fun ir => disagrees (snd ir)) (enumerate aligned))
      /\ (forall i rd,
            nth_error aligned i = Some rd /\ disagrees rd = true
            <-> exists d, In d (disagreements res)
                          /\ position d = i /\ readings d = rd)
      /\ StronglySorted lt (map position (disagreements res)))
  /\ rep_disagreements (generate_report res) = firstn 50 (disagreements res)
  /\ List.length (rep_disagreements (generate_report res))
     = Nat.min 50 (List.length (disagreements res))
  /\ rep_disagreement_count (generate_report res)
     = List.length (disagreements res).
Proof.
  intros res aligned. split; [|split; [|split; [|split]]].
  - intro H1. subst res. unfold _build_consensus.
    destruct (successful results) as [|[e r] [|b l]]; simpl in H1; try lia;
      reflexivity.
  - intro H2.
    destruct (build_consensus_votes source results H2)
      as (_ & _ & _ & _ & Hd & _).
    fold res in Hd. unfold vote_state in Hd. fold aligned in Hd.
    rewrite loop_disagreements in Hd.
    cbn [loop_init disagreements_acc app] in Hd.
    split; [exact Hd|]. split.
    + intros i rd. rewrite Hd. split.
      * intros [Hn Hdis]. exists (comparison (i, rd)).
        destruct (comparison_position_readings (i, rd)) as [Hp Hr].
        split; [|split; assumption].
        apply in_map. apply filter_In. split; [|exact Hdis].
        now apply in_enumerate_iff.
      * intros (d & Hin & Hp & Hr). apply in_map_iff in Hin.
        destruct Hin as ([j rd'] & <- & Hf).
        destruct (comparison_position_readings (j, rd')) as [Hp' Hr'].
        rewrite Hp' in Hp. rewrite Hr' in Hr. cbn [fst snd] in Hp, Hr.
        subst j rd'. apply filter_In in Hf. destruct Hf as [Hf Hdis].
        split; [now apply in_enumerate_iff | exact Hdis].
    + rewrite Hd, map_map.
      rewrite (map_ext (fun ir => position (comparison ir)) fst)
        by (intro ir; apply comparison_position_readings).
      apply (positions_ascending (fun ir => disagrees (snd ir)) aligned 0).
  - reflexivity.
  - unfold generate_report. cbn [rep_disagreements]. apply length_firstn.
  - reflexivity.
Qed.

Lemma disagreements_and_report_witness :
  2 <= List.length (successful eighty_disagreements)
  /\ List.length (disagreements
                    (_build_consensus "page.jpg" eighty_disagreements)) = 80
  /\ List.length (rep_disagreements
                    (generate_report
                       (_build_consensus "page.jpg" eighty_disagreements)))
     = 50
  /\ StronglySorted lt
       (map position
          (disagreements (_build_consensus "page.jpg" eighty_disagreements))).
Proof.
  assert (H2 : 2 <= List.length (successful eighty_disagreements))
    by (simpl; lia).
  assert (H80 : List.length
                  (disagreements
                     (_build_consensus "page.jpg" eighty_disagreements)) = 80)
    by (vm_compute; reflexivity).
  destruct (disagreements_and_report "page.jpg" eighty_disagreements)
    as (_ & Hv & _ & Hlen & _).
  destruct (Hv H2) as (_ & _ & Hsorted).
  split; [exact H2|]. split; [exact H80|]. split; [|exact Hsorted].
  rewrite Hlen, H80. reflexivity.
Defined.

(** C4 as stated fails on a document with 80 disagreeing positions: the
    disagreements of the verification result hold all 80 of them, not 50. *)
Lemma disagreement_cap_counterexample :
  List.length (disagreements
                 (_build_consensus "page.jpg" eighty_disagreements)) = 80
  /\ ~ List.length (disagreements
                      (_build_consensus "page.jpg" eighty_disagreements)) <= 50
  /\ rep_disagreement_count
       (generate_report (_build_consensus "page.jpg" eighty_disagreements))
     = 80.
Proof.
  assert (H80 : List.length
                  (disagreements
                     (_build_consensus "page.jpg" eighty_disagreements)) = 80)
    by (vm_compute; reflexivity).
  split; [exact H80|]. split; [rewrite H80; lia|].
  unfold generate_report. cbn [rep_disagreement_count]. exact H80.
Qed.

(** * Further properties *)

(** ** The tokenizer *)





















(** ** Normalization *)








(** ** What the counter holds *)

Lemma stored_count_incr (x w : string) (c : list (string * nat)) :
  stored_count (incr x c) w
  = if String.eqb w x then S (stored_count c w) else stored_count c w.
Proof.
  induction c as [|[w' n] c IH]; simpl.
  - destruct (String.eqb w x); reflexivity.
  - destruct (String.eqb_spec x w') as [-> | Hx]; simpl.
    + destruct (String.eqb w w'); reflexivity.
    + rewrite IH. destruct (String.eqb_spec w w') as [-> | Hw];
        [|reflexivity].
      destruct (String.eqb_spec w' x) as [E | _]; [congruence | reflexivity].
Qed.

Lemma stored_count_fold (xs : list string) :
  forall c w,
    stored_count (fold_left (fun c v => incr v c) xs c) w
    = stored_count c w + count_occ string_dec xs w.
Proof.
  induction xs as [|x xs IH]; intros c w; simpl; [lia|].
  rewrite IH, stored_count_incr.
  destruct (string_dec x w) as [-> | Hne].
  - rewrite String.eqb_refl. lia.
  - destruct (String.eqb_spec w x) as [E | _]; [congruence | lia].
Qed.

(** The counter stores for every word its number of occurrences. *)
Lemma stored_count_Counter (xs : list string) (w : string) :
  stored_count (Counter xs) w = count_occ string_dec xs w.
Proof. unfold Counter. now rewrite stored_count_fold. Qed.

Lemma incr_keys (x k : string) (c : list (string * nat)) :
  In k (map fst (incr x c)) -> k = x \/ In k (map fst c).
Proof.
  induction c as [|[w' n] c IH]; simpl.
  - intros [<- | []]. now left.
  - destruct (String.eqb x w'); simpl; [tauto|].
    intros [<- | H]; [tauto|]. destruct (IH H); tauto.
Qed.

Lemma incr_NoDup (x : string) (c : list (string * nat)) :
  NoDup (map fst c) -> NoDup (map fst (incr x c)).
Proof.
  induction c as [|[w' n] c IH]; simpl; intro H.
  - repeat constructor. intros [].
  - inversion H as [|? ? Hn Hc]; subst.
    destruct (String.eqb_spec x w') as [-> | Hx]; simpl.
    + constructor; assumption.
    + constructor; [|now apply IH].
      intro Hin. destruct (incr_keys _ _ _ Hin) as [E | Hin']; [congruence|].
      exact (Hn Hin').
Qed.

Lemma Counter_NoDup_keys (xs : list string) : NoDup (map fst (Counter xs)).
Proof.
  unfold Counter.
  assert (H : forall c, NoDup (map fst c) ->
                        NoDup (map fst (fold_left (fun c v => incr v c) xs c))).
  { induction xs as [|x xs IH]; intros c Hc; simpl; [exact Hc|].
    apply IH. now apply incr_NoDup. }
  apply H. constructor.
Qed.

Lemma stored_count_of_entry (c : list (string * nat)) (w : string) (n : nat) :
  NoDup (map fst c) -> In (w, n) c -> stored_count c w = n.
Proof.
  induction c as [|[w' m] c IH]; simpl; intros Hnd Hin; [tauto|].
  inversion Hnd as [|? ? Hn Hc]; subst.
  destruct Hin as [E | Hin].
  - inversion E; subst. now rewrite String.eqb_refl.
  - destruct (String.eqb_spec w w') as [-> | _]; [|now apply IH].
    exfalso. apply Hn. apply in_map_iff. exists (w', n). auto.
Qed.

Lemma entry_of_stored_count (c : list (string * nat)) (w : string) :
  0 < stored_count c w -> In (w, stored_count c w) c.
Proof.
  induction c as [|[w' m] c IH]; simpl; [lia|].
  destruct (String.eqb_spec w w') as [-> | _]; [now left|].
  intro H. right. now apply IH.
Qed.

Lemma max_by_count_spec (c : list (string * nat)) :
  forall best,
    In (max_by_count best c) (best :: c)
    /\ forall y, In y (best :: c) -> snd y <= snd (max_by_count best c).
Proof.
  induction c as [|x c IH]; intro best; simpl.
  - split; [now left|]. intros y [<- | []]. lia.
  - destruct (IH (if snd best <? snd x then x else best)) as [Hin Hmax].
    split.
    + destruct Hin as [E | Hin]; [|tauto].
      rewrite <- E. destruct (snd best <? snd x); tauto.
    + intros y Hy.
      assert (Hb : snd best <= snd (max_by_count
                                      (if snd best <? snd x then x else best) c)
                   /\ snd x <= snd (max_by_count
                                      (if snd best <? snd x then x else best) c)).
      { pose proof (Hmax _ (or_introl eq_refl)) as H0.
        destruct (Nat.ltb_spec (snd best) (snd x)); split; lia. }
      destruct Hy as [<- | [<- | Hy]]; [tauto | tauto |].
      apply Hmax. now right.
Qed.

(** The vote at the head of [most_common(1)]: a word some engine read, with
    its number of readings, which no other word exceeds. *)
Lemma top_vote_spec (rd : dict string) :
  valid_readings rd <> [] ->
  let xs := values (valid_readings rd) in
  In (fst (top_vote rd)) xs
  /\ snd (top_vote rd) = count_occ string_dec xs (fst (top_vote rd))
  /\ (forall w, count_occ string_dec xs w <= snd (top_vote rd))
  /\ 1 <= snd (top_vote rd) <= List.length (valid_readings rd).
Proof.
  intros Hne xs. unfold top_vote. fold xs.
  assert (Hx : xs <> [])
    by (subst xs; unfold values; destruct (valid_readings rd);
        [congruence | discriminate]).
  assert (Hc : Counter xs <> []).
  { destruct xs as [|x xs']; [congruence|].
    assert (H0 : 0 < stored_count (Counter (x :: xs')) x).
    { rewrite stored_count_Counter. simpl.
      destruct (string_dec x x); [lia | congruence]. }
    intro E. rewrite E in H0. simpl in H0. lia. }
  destruct (Counter xs) as [|b c] eqn:EC; [congruence|].
  cbn [most_common_1 hd].
  destruct (max_by_count_spec c b) as [Hin Hmax].
  set (top := max_by_count b c) in *.
  assert (Hcount : snd top = count_occ string_dec xs (fst top)).
  { rewrite <- stored_count_Counter, EC. symmetry.
    apply stored_count_of_entry.
    - rewrite <- EC. apply Counter_NoDup_keys.
    - now destruct top. }
  assert (Hall : forall w, count_occ string_dec xs w <= snd top).
  { intro w. destruct (count_occ string_dec xs w) eqn:E; [lia|].
    rewrite <- stored_count_Counter, EC in E.
    assert (Hw : In (w, stored_count (b :: c) w) (b :: c))
      by (apply entry_of_stored_count; lia).
    rewrite <- E. exact (Hmax _ Hw). }
  assert (Hpos : 1 <= snd top).
  { destruct xs as [|x xs']; [congruence|].
    pose proof (Hall x) as H. simpl in H.
    destruct (string_dec x x); [lia | congruence]. }
  split; [|split; [exact Hcount | split; [exact Hall | split; [exact Hpos|]]]].
  - apply (count_occ_In string_dec). lia.
  - rewrite Hcount. pose proof (count_occ_bound string_dec (fst top) xs) as H.
    subst xs. unfold values in H. now rewrite length_map in H.
Qed.

(** ** The decision of a vote *)

(** X4: on a row with a non-empty reading, the agreement "k/n" counts the
    n non-empty readings and the k readings of a most frequent word; the
    tier is high exactly when k = n or k >= 3, medium exactly when k = 2 and
    n >= 3, and low exactly when k = 1 and n >= 2. *)
Theorem vote_decision_table (rd : dict string) :
  valid_readings rd <> [] ->
  let xs := values (valid_readings rd) in
  let n := List.length (valid_readings rd) in
  exists w k,
    In w xs
    /\ k = count_occ string_dec xs w
    /\ (forall w', count_occ string_dec xs w' <= k)
    /\ vote_agreement rd = (str k ++ "/" ++ str n)%string
    /\ (tier rd = "high" <-> k = n \/ 3 <= k)
    /\ (tier rd = "medium" <-> k = 2 /\ 3 <= n)
    /\ (tier rd = "low" <-> k = 1 /\ 2 <= n).
Proof.
  intros Hne xs n.
  destruct (top_vote_spec rd Hne) as (Hin & Hk & Hmax & Hlo & Hhi).
  exists (fst (top_vote rd)), (snd (top_vote rd)).
  split; [exact Hin|]. split; [exact Hk|]. split; [exact Hmax|].
  fold n in Hhi. clear Hin Hk Hmax.
  unfold vote_agreement, tier, calculate_consensus.
  change (hd ("", 0) (most_common_1 (Counter (values (valid_readings rd)))))
    with (top_vote rd).
  fold n. set (k := snd (top_vote rd)) in *.
  destruct (valid_readings rd) as [|kv valid] eqn:E; [congruence|].
  cbn [is_empty].
  destruct (Nat.eqb_spec k n) as [Hkn | Hkn]; cbn [fst snd].
  { split; [reflexivity|]. repeat split; intros; try discriminate; lia. }
  destruct (Nat.leb_spec 3 k) as [H3 | H3]; cbn [fst snd].
  { split; [reflexivity|]. repeat split; intros; try discriminate; lia. }
  destruct (Nat.eqb_spec k 2) as [H2 | H2];
    destruct (Nat.leb_spec 3 n) as [Hn | Hn]; cbn [andb];
    vote_branches; cbn [fst snd];
    (split; [reflexivity|]);
    repeat split; intros; try discriminate; try lia.
Qed.

Lemma vote_decision_table_witness :
  let rd := [("docai", "cat"); ("vision", "cot"); ("claude", "cat"); ("gpt", "")] in
  valid_readings rd <> []
  /\ exists w k,
       In w (values (valid_readings rd))
       /\ k = count_occ string_dec (values (valid_readings rd)) w
       /\ (forall w', count_occ string_dec (values (valid_readings rd)) w' <= k)
       /\ vote_agreement rd = (str k ++ "/" ++ str 3)%string
       /\ (tier rd = "high" <-> k = 3 \/ 3 <= k)
       /\ (tier rd = "medium" <-> k = 2 /\ 3 <= 3)
       /\ (tier rd = "low" <-> k = 1 /\ 2 <= 3).
Proof.
  intro rd.
  assert (Hne : valid_readings rd <> []) by discriminate.
  split; [exact Hne|].
  exact (vote_decision_table rd Hne).
Defined.

Lemma chosen_of_vote (rd : dict string) :
  (vote_chosen rd = None <-> tier rd = "low")
  /\ forall w, vote_chosen rd = Some w ->
               In w (values (valid_readings rd)).
Proof.
  destruct (is_empty (valid_readings rd)) eqn:Hie.
  - unfold vote_chosen, tier, calculate_consensus. rewrite Hie. cbn.
    split; [tauto | discriminate].
  - assert (Hne : valid_readings rd <> [])
      by (intro E; rewrite E in Hie; discriminate Hie).
    destruct (top_vote_spec rd Hne) as (Hin & _).
    assert (Hocr : forall f : string * string -> bool,
               filter f (valid_readings rd) <> [] ->
               In (hd "" (values (filter f (valid_readings rd))))
                  (values (valid_readings rd))).
    { intros f Hf.
      destruct (filter f (valid_readings rd)) as [|[e w] l] eqn:F;
        [congruence|]. simpl.
      assert (H : In (e, w) (filter f (valid_readings rd)))
        by (rewrite F; now left).
      apply filter_In in H. destruct H as [H _].
      unfold values. apply in_map_iff. exists (e, w). auto. }
    unfold vote_chosen, tier, calculate_consensus.
    change (hd ("", 0) (most_common_1 (Counter (values (valid_readings rd)))))
      with (top_vote rd).
    rewrite Hie.
    vote_branches; cbn [fst snd];
      (split; [split; intro H0; first [reflexivity | discriminate H0]|]);
      intros w Hw;
      first
        [ discriminate Hw
        | match type of Hw with
          | Some ?x = Some _ =>
              assert (Hx : x = w) by congruence; rewrite <- Hx
          end;
          first
            [ exact Hin
            | apply Hocr;
              match goal with
              | H : (_ && negb (is_empty ?l))%bool = true |- _ =>
                  apply andb_prop in H; destruct H as [_ H];
                  destruct l; [discriminate H | discriminate]
              end ] ].
Qed.

(** X5: the vote chooses no word exactly when the tier is low, and a
    chosen word is always one of the non-empty readings of the row. *)
Theorem vote_chosen_is_a_reading (rd : dict string) :
  (vote_chosen rd = None <-> tier rd = "low")
  /\ forall w, vote_chosen rd = Some w ->
               In w (values (valid_readings rd)).
Proof. exact (@chosen_of_vote rd). Qed.

Lemma vote_chosen_is_a_reading_witness :
  let rd := [("docai", "cat"); ("vision", ""); ("claude", "cot")] in
  vote_chosen rd = None /\ tier rd = "low".
Proof.
  intro rd.
  assert (H : vote_chosen rd = None) by reflexivity.
  split; [exact H|].
  exact (proj1 (proj1 (vote_chosen_is_a_reading rd)) H).
Defined.

(** ** Disagreement and unanimity *)

Lemma values_valid_readings (rd : dict string) :
  values (valid_readings rd) = filter truthy (values rd).
Proof.
  unfold values, valid_readings.
  induction rd as [|[e w] rd IH]; simpl; [reflexivity|].
  destruct (truthy w); simpl; now rewrite IH.
Qed.

Lemma contains_In (x : string) (xs : list string) :
  contains x xs = true <-> In x xs.
Proof.
  unfold contains. rewrite existsb_exists. split.
  - intros (y & Hy & E). apply String.eqb_eq in E. now subst.
  - intro H. exists x. split; [exact H | apply String.eqb_refl].
Qed.

Lemma in_distinct (x : string) (xs : list string) :
  In x xs -> In x (distinct xs).
Proof.
  induction xs as [|y xs IH]; simpl; [tauto|].
  intros [-> | H].
  - destruct (contains x xs) eqn:E; [|now left].
    apply IH. now apply contains_In.
  - destruct (contains y xs); [|right]; now apply IH.
Qed.

Lemma distinct_le_1 (xs : list string) :
  List.length (distinct xs) <= 1 ->
  forall x y, In x xs -> In y xs -> x = y.
Proof.
  intros H x y Hx Hy. apply in_distinct in Hx, Hy.
  destruct (distinct xs) as [|a [|b l]]; simpl in *; try lia; try tauto.
  destruct Hx as [<- | []]. destruct Hy as [<- | []]. reflexivity.
Qed.

Lemma top_vote_unanimous (rd : dict string) (w : string) :
  valid_readings rd <> [] ->
  (forall x, In x (values (valid_readings rd)) -> x = w) ->
  top_vote rd = (w, List.length (valid_readings rd)).
Proof.
  intros Hne H. unfold top_vote.
  rewrite (@Counter_unanimous w).
  - unfold values. now rewrite length_map.
  - unfold values. destruct (valid_readings rd); [congruence | discriminate].
  - exact H.
Qed.

Lemma unanimous_iff_agrees (rd : dict string) :
  valid_readings rd <> [] ->
  (disagrees rd = false
   <-> snd (top_vote rd) = List.length (valid_readings rd)).
Proof.
  intro Hne. unfold disagrees. rewrite <- values_valid_readings.
  rewrite Nat.ltb_ge. split.
  - intro H.
    destruct (valid_readings rd) as [|[e w] l] eqn:E; [congruence|].
    rewrite <- E in *.
    rewrite (@top_vote_unanimous rd w Hne); [reflexivity|].
    intros x Hx. apply (distinct_le_1 _ H); [exact Hx|].
    rewrite E. now left.
  - intro H. destruct (top_vote_spec rd Hne) as (_ & Hk & _).
    rewrite H in Hk.
    assert (Hl : List.length (values (valid_readings rd))
                 = List.length (valid_readings rd))
      by (unfold values; apply length_map).
    rewrite <- Hl in Hk. symmetry in Hk.
    apply count_occ_unique in Hk.
    apply (@distinct_same (fst (top_vote rd))).
    intros x Hx. rewrite Hk in Hx. now apply repeat_spec in Hx.
Qed.

(** X6: a row with a non-empty reading is recorded as a disagreement
    exactly when its vote is not unanimous, that is when the reason is not
    "All n models agree". *)
Theorem disagreement_iff_not_unanimous (rd : dict string) :
  valid_readings rd <> [] ->
  (disagrees rd = false
   <-> vote_reason rd
       = ("All " ++ str (List.length (valid_readings rd))
          ++ " models agree")%string).
Proof.
  intro Hne. rewrite (unanimous_iff_agrees rd Hne).
  assert (Hie : is_empty (valid_readings rd) = false)
    by (destruct (valid_readings rd); [congruence | reflexivity]).
  unfold vote_reason, calculate_consensus.
  change (hd ("", 0) (most_common_1 (Counter (values (valid_readings rd)))))
    with (top_vote rd).
  rewrite Hie.
  destruct (Nat.eqb_spec (snd (top_vote rd))
              (List.length (valid_readings rd))) as [Hk | Hk].
  - cbn [snd]. tauto.
  - split; [tauto|]. vote_branches; cbn [snd append]; discriminate.
Qed.

Lemma disagreement_iff_not_unanimous_witness :
  let rd := [("docai", "cat"); ("vision", ""); ("claude", "cat")] in
  valid_readings rd <> []
  /\ disagrees rd = false /\ vote_reason rd = "All 2 models agree".
Proof.
  intro rd.
  assert (Hne : valid_readings rd <> []) by discriminate.
  assert (Hd : disagrees rd = false) by reflexivity.
  split; [exact Hne|]. split; [exact Hd|].
  exact (proj1 (disagreement_iff_not_unanimous rd Hne) Hd).
Defined.

(** ** The shape of the alignment *)

Lemma keys_row_at (tokenized : dict (list string)) (i : nat) :
  keys (row_at tokenized i) = keys tokenized.
Proof. unfold keys, row_at. rewrite map_map. reflexivity. Qed.

Lemma keys_tokenized (texts : dict string) :
  keys (map (fun et => (fst et, tokenize (snd et))) texts) = keys texts.
Proof. unfold keys. rewrite map_map. reflexivity. Qed.

Lemma shape_of_alignment (texts : dict string) :
  List.length (align_texts texts)
  = max_len (map (fun et => (fst et, tokenize (snd et))) texts)
  /\ (forall e t, In (e, t) texts ->
        List.length (tokenize t) <= List.length (align_texts texts))
  /\ (align_texts texts <> [] ->
      exists e t, In (e, t) texts
                  /\ List.length (tokenize t) = List.length (align_texts texts))
  /\ (forall row, In row (align_texts texts) -> keys row = keys texts).
Proof.
  set (tokenized := map (fun et => (fst et, tokenize (snd et))) texts).
  assert (Hlen : List.length (align_texts texts) = max_len tokenized)
    by (unfold align_texts; now rewrite length_map, length_seq).
  split; [exact Hlen|]. split; [|split].
  - intros e t Hin. rewrite Hlen. apply (@max_len_bound tokenized e).
    subst tokenized. apply in_map_iff. exists (e, t). auto.
  - intro Hne.
    assert (Hpos : max_len tokenized - 1 < max_len tokenized).
    { rewrite <- Hlen. destruct (align_texts texts); [congruence|].
      simpl. lia. }
    destruct (max_len_reached _ Hpos) as (e & ws & Hin & Hlt).
    subst tokenized. apply in_map_iff in Hin.
    destruct Hin as ([e' t] & Heq & Hin). cbn [fst snd] in Heq.
    injection Heq as <- <-.
    exists e', t. split; [exact Hin|].
    pose proof (@max_len_bound
                  (map (fun et => (fst et, tokenize (snd et))) texts)
                  e' (tokenize t)) as Hb.
    rewrite Hlen.
    assert (Hin' : In (e', tokenize t)
                     (map (fun et => (fst et, tokenize (snd et))) texts))
      by (apply in_map_iff; exists (e', t); auto).
    specialize (Hb Hin'). simpl in Hlt. lia.
  - intros row Hrow. unfold align_texts in Hrow. apply in_map_iff in Hrow.
    destruct Hrow as (i & <- & _).
    now rewrite keys_row_at, keys_tokenized.
Qed.

(** X7: [align_texts] returns as many rows as the longest token list has
    tokens, no reading has more tokens than there are rows, and every row
    lists the engines of the input, in the order of the input. *)
Theorem align_texts_shape (texts : dict string) :
  List.length (align_texts texts)
  = max_len (map (fun et => (fst et, tokenize (snd et))) texts)
  /\ (forall e t, In (e, t) texts ->
        List.length (tokenize t) <= List.length (align_texts texts))
  /\ (align_texts texts <> [] ->
      exists e t, In (e, t) texts
                  /\ List.length (tokenize t) = List.length (align_texts texts))
  /\ (forall row, In row (align_texts texts) -> keys row = keys texts).
Proof. exact (@shape_of_alignment texts). Qed.

Lemma align_texts_shape_witness :
  let texts := [("docai", "Dear Omi, hello"); ("claude", "dear omi")] in
  In ("docai", "Dear Omi, hello") texts
  /\ 3 <= List.length (align_texts texts).
Proof.
  intro texts.
  assert (H : In ("docai", "Dear Omi, hello") texts) by (left; reflexivity).
  split; [exact H|].
  exact (proj1 (proj2 (align_texts_shape texts)) _ _ H).
Defined.

Lemma get_of_In {V} (d : dict V) (k : string) (v : V) :
  NoDup (keys d) -> In (k, v) d -> get d k = Some v.
Proof.
  unfold keys. induction d as [|[k' v'] d IH]; simpl; intros Hnd Hin; [tauto|].
  inversion Hnd as [|? ? Hn Hd]; subst.
  destruct Hin as [E | Hin].
  - inversion E; subst. now rewrite String.eqb_refl.
  - destruct (String.eqb_spec k k') as [-> | _]; [|now apply IH].
    exfalso. apply Hn. apply in_map_iff. exists (k', v). auto.
Qed.

Lemma map_beyond {A} (g : nat -> A) (d : A) (k : nat) :
  forall a, (forall i, a <= i -> g i = d) -> map g (seq a k) = repeat d k.
Proof.
  induction k as [|k IH]; intros a H; simpl; [reflexivity|].
  rewrite (H a (le_n a)). f_equal. apply IH. intros i Hi. apply H. lia.
Qed.

Lemma positions_with_padding (l : list string) (m : nat) :
  List.length l <= m ->
  map (fun i => nth i l "") (seq 0 m) = l ++ repeat "" (m - List.length l).
Proof.
  intro H. replace m with (List.length l + (m - List.length l)) at 1 by lia.
  rewrite seq_app, map_app. f_equal.
  - rewrite (map_over_positions (fun w => w) "" l). apply map_id.
  - apply map_beyond. intros i Hi. apply nth_overflow. simpl in Hi. lia.
Qed.

Lemma filter_truthy_tokens (ws : list string) (k : nat) :
  (forall w, In w ws -> truthy w = true) ->
  filter truthy (ws ++ repeat "" k) = ws.
Proof.
  intro H. rewrite filter_app.
  rewrite (forallb_filter_id truthy ws) by (now apply forallb_forall).
  rewrite filter_none; [apply app_nil_r|].
  intros x Hx. apply repeat_spec in Hx. now subst.
Qed.

(** X8: in the aligned rows the column of an engine holds the tokens of its
    text, in order, followed by empty padding up to the number of rows;
    dropping the padding gives the tokens back. *)
Theorem align_texts_column (texts : dict string) (e t : string) :
  NoDup (keys texts) ->
  In (e, t) texts ->
  column e (align_texts texts)
  = tokenize t
    ++ repeat "" (List.length (align_texts texts) - List.length (tokenize t))
  /\ filter truthy (column e (align_texts texts)) = tokenize t.
Proof.
  intros Hnd Hin.
  destruct (shape_of_alignment texts) as (Hlen & Hle & _).
  assert (Hcol : column e (align_texts texts)
                 = map (fun i => nth i (tokenize t) "")
                       (seq 0 (List.length (align_texts texts)))).
  { rewrite Hlen. unfold column, align_texts. rewrite map_map.
    apply map_ext. intro i.
    rewrite (@get_of_In _ _ e (nth i (tokenize t) "")); [reflexivity | |].
    - now rewrite keys_row_at, keys_tokenized.
    - unfold row_at. rewrite map_map. apply in_map_iff.
      exists (e, t). auto. }
  assert (Heq : column e (align_texts texts)
                = tokenize t
                  ++ repeat "" (List.length (align_texts texts)
                                - List.length (tokenize t))).
  { rewrite Hcol. apply positions_with_padding. exact (Hle e t Hin). }
  split; [exact Heq|]. rewrite Heq. apply filter_truthy_tokens.
  intros w Hw. exact (tokenize_truthy t w Hw).
Qed.

Lemma align_texts_column_witness :
  let texts := [("docai", "Dear Omi, hello"); ("claude", "dear omi")] in
  NoDup (keys texts)
  /\ In ("claude", "dear omi") texts
  /\ column "claude" (align_texts texts) = ["dear"; "omi"; ""].
Proof.
  intro texts.
  assert (Hnd : NoDup (keys texts)).
  { simpl. repeat constructor; simpl; intuition discriminate. }
  assert (Hin : In ("claude", "dear omi") texts) by (right; left; reflexivity).
  split; [exact Hnd|]. split; [exact Hin|].
  exact (proj1 (@align_texts_column texts "claude" "dear omi" Hnd Hin)).
Defined.

(** ** Counts and confidence of the result *)

Lemma loop_body_counts (st : loop_state) (ir : nat * dict string) :
  high_count (loop_body st ir) + medium_count (loop_body st ir)
  + low_count (loop_body st ir)
  = high_count st + medium_count st + low_count st + 1.
Proof.
  unfold loop_body. destruct (calculate_consensus (snd ir)) as [[[c a] conf] r].
  cbn [high_count medium_count low_count].
  destruct (String.eqb conf "high"); [lia|].
  destruct (String.eqb conf "medium"); lia.
Qed.

Lemma loop_counts (l : list (nat * dict string)) :
  forall st,
    high_count (fold_left loop_body l st)
    + medium_count (fold_left loop_body l st)
    + low_count (fold_left loop_body l st)
    = high_count st + medium_count st + low_count st + List.length l.
Proof.
  induction l as [|ir l IH]; intro st; cbn [fold_left List.length]; [lia|].
  rewrite IH, loop_body_counts. lia.
Qed.

Lemma counts_of_result (source : string)
  (results : dict EngineResult) :
  let res := _build_consensus source results in
  high_confidence_words res + medium_confidence_words res
  + low_confidence_words res = total_words res
  /\ total_words res = max_len (successful_tokens results).
Proof.
  intro res.
  destruct (le_lt_dec 2 (List.length (successful results))) as [H2 | H1].
  - destruct (build_consensus_votes source results H2)
      as (Ht & Hh & Hm & Hl & _).
    fold res in Ht, Hh, Hm, Hl. rewrite Ht, Hh, Hm, Hl. split.
    + unfold vote_state. rewrite loop_counts, length_enumerate. reflexivity.
    + apply (proj1 (shape_of_alignment (successful_texts results))).
  - subst res. unfold _build_consensus, successful_tokens, successful_texts.
    destruct (successful results) as [|[e r] [|b l]]; simpl in H1; try lia.
    + split; reflexivity.
    + unfold max_len, values.
      cbn [is_empty List.length Nat.eqb total_words high_confidence_words
           medium_confidence_words low_confidence_words map fst snd
           fold_right].
      split; lia.
Qed.

(** X9: in every result the high, medium and low counts add up to the
    total number of words, and that total is the number of tokens of the
    longest successful reading (0 when no reading succeeded). *)
Theorem build_consensus_counts (source : string)
  (results : dict EngineResult) :
  let res := _build_consensus source results in
  high_confidence_words res + medium_confidence_words res
  + low_confidence_words res = total_words res
  /\ total_words res = max_len (successful_tokens results).
Proof. exact (@counts_of_result source results). Qed.

Lemma nat_div_range (h t : nat) :
  h <= t -> 0 < t -> (0 <= nat_div h t)%Q /\ (nat_div h t <= 1)%Q.
Proof.
  intros Hle Hpos. unfold nat_div.
  assert (Ht : (0 < inject_Z (Z.of_nat t))%Q)
    by (unfold Qlt; simpl; lia).
  split.
  - apply Qle_shift_div_l; [exact Ht|]. rewrite Qmult_0_l.
    unfold Qle. simpl. lia.
  - apply Qle_shift_div_r; [exact Ht|]. rewrite Qmult_1_l.
    unfold Qle. simpl. lia.
Qed.

(** X10: unless exactly one reading succeeded (the confidence is then the
    engine's own score), the overall confidence lies between 0 and 1, and it
    is 0 when the result has no word. *)
Theorem overall_confidence_range (source : string)
  (results : dict EngineResult) :
  List.length (successful results) <> 1 ->
  let res := _build_consensus source results in
  (0 <= overall_confidence res)%Q
  /\ (overall_confidence res <= 1)%Q
  /\ (total_words res = 0 -> overall_confidence res = 0%Q).
Proof.
  intros H1 res.
  destruct (le_lt_dec 2 (List.length (successful results))) as [H2 | H0].
  - destruct (counts_of_result source results) as [Hsum _].
    destruct (build_consensus_votes source results H2)
      as (Ht & Hh & _ & _ & _ & Hc).
    fold res in Hsum, Ht, Hh, Hc. rewrite Hc, <- Ht, <- Hh.
    destruct (Nat.ltb_spec 0 (total_words res)) as [Hpos | Hz].
    + destruct (@nat_div_range (high_confidence_words res) (total_words res))
        as [Ha Hb]; [lia | exact Hpos |].
      split; [exact Ha|]. split; [exact Hb|]. lia.
    + split; [apply Qle_refl|]. split; [discriminate | reflexivity].
  - subst res. unfold _build_consensus.
    destruct (successful results) as [|[e r] [|b l]]; simpl in H0, H1; try lia.
    cbn. split; [apply Qle_refl|]. split; [discriminate | reflexivity].
Qed.

Lemma overall_confidence_range_witness :
  let results := [("docai", ok "docai" "Dear Omi" 0.9);
                  ("claude", ok "claude" "dear Oma" 0.9)] in
  List.length (successful results) <> 1
  /\ (overall_confidence (_build_consensus "page.jpg" results) <= 1)%Q.
Proof.
  intro results.
  assert (H : List.length (successful results) <> 1) by (simpl; lia).
  split; [exact H|].
  exact (proj1 (proj2 (overall_confidence_range "page.jpg" results H))).
Defined.

Lemma successful_idempotent (results : dict EngineResult) :
  successful (successful results) = successful results.
Proof.
  unfold successful. induction results as [|[e r] rs IH]; simpl; [reflexivity|].
  destruct (success r) eqn:E; simpl; [rewrite E|]; now rewrite ?IH.
Qed.

Lemma result_of_successful (source : string)
  (results : dict EngineResult) :
  let res := _build_consensus source results in
  let res' := _build_consensus source (successful results) in
  consensus_text res = consensus_text res'
  /\ overall_confidence res = overall_confidence res'
  /\ total_words res = total_words res'
  /\ high_confidence_words res = high_confidence_words res'
  /\ medium_confidence_words res = medium_confidence_words res'
  /\ low_confidence_words res = low_confidence_words res'
  /\ disagreements res = disagreements res'
  /\ models_used res = keys results
  /\ engine_results res = results.
Proof.
  intros res res'. subst res res'. unfold _build_consensus.
  rewrite successful_idempotent.
  destruct (successful results) as [|[e r] [|b l]];
    cbn [is_empty List.length Nat.eqb];
    repeat split.
Qed.

(** X11: failed readings take no part in the consensus: the text, the
    confidence, the counts and the disagreements are those obtained from
    the successful readings alone; the failed ones only appear in
    [models_used] and [engine_results]. *)
Theorem failed_readings_ignored (source : string)
  (results : dict EngineResult) :
  let res := _build_consensus source results in
  let res' := _build_consensus source (successful results) in
  consensus_text res = consensus_text res'
  /\ overall_confidence res = overall_confidence res'
  /\ total_words res = total_words res'
  /\ high_confidence_words res = high_confidence_words res'
  /\ medium_confidence_words res = medium_confidence_words res'
  /\ low_confidence_words res = low_confidence_words res'
  /\ disagreements res = disagreements res'
  /\ models_used res = keys results
  /\ engine_results res = results.
Proof. exact (@result_of_successful source results). Qed.

(** ** The words of the consensus text *)










(** ** The report *)

(** X13: the report of a result is consistent: its three counts add up to
    its total, it has one engine status per engine of [models_used] in the
    same order, an engine is reported without success exactly when it has an
    error and then with 0 characters, and the listed disagreements are at
    most 50 and at most the disagreement count. *)
Theorem report_consistent (source : string) (results : dict EngineResult) :
  let rep := generate_report (_build_consensus source results) in
  rep_high_confidence rep + rep_medium_confidence rep + rep_low_confidence rep
  = rep_total_words rep
  /\ keys (rep_engine_status rep) = rep_models_used rep
  /\ rep_models_used rep = keys results
  /\ List.length (rep_disagreements rep) <= 50
  /\ List.length (rep_disagreements rep) <= rep_disagreement_count rep
  /\ forall e st, In (e, st) (rep_engine_status rep) ->
       (st_success st = false <-> st_error st <> None)
       /\ (st_success st = false -> st_chars st = 0).
Proof.
  intro rep.
  destruct (counts_of_result source results) as [Hsum _].
  destruct (result_of_successful source results)
    as (_ & _ & _ & _ & _ & _ & _ & Hm & He).
  cbv zeta in Hsum, Hm, He.
  subst rep. unfold generate_report.
  cbn [rep_high_confidence rep_medium_confidence rep_low_confidence
       rep_total_words rep_engine_status rep_models_used rep_disagreements
       rep_disagreement_count].
  split; [exact Hsum|]. rewrite He, Hm.
  split; [unfold keys; rewrite map_map; reflexivity|].
  split; [reflexivity|].
  rewrite length_firstn.
  split; [apply Nat.le_min_l|]. split; [apply Nat.le_min_r|].
  intros e st Hin. apply in_map_iff in Hin.
  destruct Hin as ([e' r] & Heq & _). cbn [fst snd] in Heq.
  injection Heq as <- <-. cbn [st_success st_error st_chars].
  unfold success. destruct (error r); split; try split;
    intros; try congruence; reflexivity.
Qed.

Lemma report_consistent_witness :
  let rep := generate_report
               (_build_consensus "page.jpg"
                  [("vision", failed "vision" "HTTP 403");
                   ("claude", ok "claude" "Dear Omi" 0.9)]) in
  In ("vision", mkEngineStatus false 0 (Some "HTTP 403"))
     (rep_engine_status rep)
  /\ st_chars (mkEngineStatus false 0 (Some "HTTP 403")) = 0.
Proof.
  intro rep.
  assert (Hin : In ("vision", mkEngineStatus false 0 (Some "HTTP 403"))
                   (rep_engine_status rep)) by (left; reflexivity).
  split; [exact Hin|].
  destruct (report_consistent "page.jpg"
              [("vision", failed "vision" "HTTP 403");
               ("claude", ok "claude" "Dear Omi" 0.9)])
    as (_ & _ & _ & _ & _ & H).
  exact (proj2 (H _ _ Hin) eq_refl).
Defined.

(** ** The engines of a verification *)

Lemma repository_reading (clients : dict client) (image_path : string) :
  repository_clients clients ->
  forall name c, In (name, c) clients ->
    exists r, engine_reading name c image_path = inr r
              /\ (success r = false -> text r = "" /\ confidence r = 0%Q).
Proof.
  intros H name c Hin. unfold engine_reading.
  destruct (H name c Hin) as [-> | (n & api & ->)].
  - destruct (c image_path); eexists; split; try reflexivity;
      cbn; intros; try discriminate; auto.
  - destruct (contains name ["docai"; "vision"]);
      unfold llm_extract_text; destruct (api image_path _);
      eexists; split; try reflexivity; cbn; intros; try discriminate; auto.
Qed.

(** X14: for an existing image and the adapters of the repository,
    [verify] returns a result whose [models_used] and [engine_results] list
    the configured engines in configuration order, each engine being
    invoked once, and in which every failed engine has the empty text and
    confidence 0. *)
Theorem verify_audit_trail (fs_exists : string -> bool)
  (clients : dict client) (image_path : string) (log : list call) :
  fs_exists image_path = true ->
  repository_clients clients ->
  exists res,
    verify fs_exists clients image_path log
    = (inr res, log ++ invocations clients image_path)
    /\ source_file res = image_path
    /\ models_used res = keys clients
    /\ keys (engine_results res) = keys clients
    /\ forall e r, In (e, r) (engine_results res) ->
         success r = false -> text r = "" /\ confidence r = 0%Q.
Proof.
  intros Hex Hrepo.
  destruct (@readings_for_exists clients image_path
              (fun r => success r = false -> text r = "" /\ confidence r = 0%Q)
              (repository_reading image_path Hrepo))
    as (rs & HF & HK & HA).
  exists (_build_consensus image_path rs).
  destruct (result_of_successful image_path rs)
    as (_ & _ & _ & _ & _ & _ & _ & Hm & He).
  cbv zeta in Hm, He. rewrite Hm, He, HK.
  split; [|split; [|split; [reflexivity | split; [reflexivity|]]]].
  - unfold verify, bind, ret. rewrite Hex. simpl.
    rewrite (run_engines_readings [] log HF). reflexivity.
  - unfold _build_consensus.
    destruct (successful rs) as [|[e r] [|b l]]; reflexivity.
  - intros e r Hin. rewrite Forall_forall in HA. exact (HA (e, r) Hin).
Qed.

Lemma verify_audit_trail_witness :
  all_files odd_image = true
  /\ repository_clients odd_clients
  /\ exists res,
       verify all_files odd_clients odd_image []
       = (inr res, [] ++ invocations odd_clients odd_image)
       /\ models_used res = ["docai"; "claude"].
Proof.
  assert (Hr : repository_clients odd_clients).
  { intros name c [H | [H | []]]; inversion H; subst.
    - left. reflexivity.
    - right. eexists. eexists. reflexivity. }
  split; [reflexivity|]. split; [exact Hr|].
  destruct (@verify_audit_trail all_files odd_clients odd_image []
              eq_refl Hr) as (res & Hv & _ & Hm & _).
  exists res. split; [exact Hv | exact Hm].
Defined.

Lemma keys_filter_NoDup {V} (f : string * V -> bool) (d : dict V) :
  NoDup (keys d) -> NoDup (keys (filter f d)).
Proof.
  unfold keys. induction d as [|[k v] d IH]; simpl; intro H; [constructor|].
  inversion H as [|? ? Hn Hd]; subst.
  destruct (f (k, v)); simpl; [|now apply IH].
  constructor; [|now apply IH].
  intro Hin. apply Hn. apply in_map_iff in Hin.
  destruct Hin as (x & E & Hx). apply filter_In in Hx.
  apply in_map_iff. exists x. tauto.
Qed.

(** X15: the constructor registers the engines in the fixed order vision,
    docai, claude, gpt, whatever the order of [enabled_engines]; it keeps
    the engines that have a client and that an enabled list, when given and
    not empty, names; it fails exactly when none is left, and otherwise
    the engine names are pairwise distinct and among the four. *)
Theorem constructor_engine_order (v d c g : option client)
  (enabled : option (list string)) :
  keys (configured_clients v d c g enabled)
  = map fst (filter (fun p => snd p && enabled_ok enabled (fst p))
               (offered v d c g))
  /\ NoDup (keys (configured_clients v d c g enabled))
  /\ (forall e, In e (keys (configured_clients v d c g enabled)) ->
                In e engine_priority)
  /\ (forall clients,
        OCRVerificationEngine_init v d c g enabled = inr clients ->
        clients = configured_clients v d c g enabled /\ clients <> [])
  /\ (forall e, OCRVerificationEngine_init v d c g enabled = inl e ->
                configured_clients v d c g enabled = []).
Proof.
  assert (Horder : keys (configured_clients v d c g enabled)
                   = map fst (filter (fun p => snd p
                                               && enabled_ok enabled (fst p))
                                (offered v d c g))).
  { unfold configured_clients, offered, add_client, enabled_ok.
    destruct v, d, c, g; destruct enabled as [[|e es]|];
      cbn -[contains]; try reflexivity;
      repeat match goal with
             | |- context [contains ?a ?b] => destruct (contains a b)
             end; reflexivity. }
  split; [exact Horder|]. split; [|split; [|split]].
  - rewrite Horder.
    change (map fst (filter (fun p => snd p && enabled_ok enabled (fst p))
                       (offered v d c g)))
      with (keys (filter (fun p => snd p && enabled_ok enabled (fst p))
                    (offered v d c g))).
    apply keys_filter_NoDup. unfold offered, keys. simpl.
    repeat constructor; simpl; intuition discriminate.
  - intros e He. rewrite Horder in He. apply in_map_iff in He.
    destruct He as (p & <- & Hp). apply filter_In in Hp. destruct Hp as [Hp _].
    unfold offered in Hp. simpl in Hp.
    destruct Hp as [<- | [<- | [<- | [<- | []]]]]; simpl; tauto.
  - intros clients H. unfold OCRVerificationEngine_init in H.
    destruct (configured_clients v d c g enabled); simpl in H;
      [discriminate H|]. inversion H. split; [reflexivity | discriminate].
  - intros e H. unfold OCRVerificationEngine_init in H.
    destruct (configured_clients v d c g enabled); simpl in H;
      [reflexivity | discriminate H].
Qed.

Lemma constructor_engine_order_witness :
  let clients := [("vision", broken_client "v"); ("gpt", broken_client "g")] in
  OCRVerificationEngine_init (Some (broken_client "v"))
    (Some (broken_client "d")) None (Some (broken_client "g"))
    (Some ["gpt"; "vision"]) = inr clients
  /\ clients <> [].
Proof.
  intro clients.
  assert (H : OCRVerificationEngine_init (Some (broken_client "v"))
                (Some (broken_client "d")) None (Some (broken_client "g"))
                (Some ["gpt"; "vision"]) = inr clients) by reflexivity.
  split; [exact H|].
  destruct (constructor_engine_order (Some (broken_client "v"))
              (Some (broken_client "d")) None (Some (broken_client "g"))
              (Some ["gpt"; "vision"])) as (_ & _ & _ & Hi & _).
  exact (proj2 (Hi clients H)).
Defined.

(** ** The batch loop *)

Lemma run_engines_appends (clients : dict client) (image_path : string) :
  forall acc, exists r l,
    forall log, run_engines clients image_path acc log = (r, log ++ l).
Proof.
  induction clients as [|[name c] clients IH]; intro acc; simpl.
  - exists (inr acc), []. intro log. unfold ret. now rewrite app_nil_r.
  - destruct (engine_reading name c image_path) as [e | r] eqn:E.
    + exists (inl e), [(name, image_path)]. intro log.
      unfold bind. now rewrite run_engine_reading, E.
    + destruct (IH (acc ++ [(name, r)])) as (r' & l & H).
      exists r', ((name, image_path) :: l). intro log.
      unfold bind. rewrite run_engine_reading, E, H.
      now rewrite <- app_assoc.
Qed.

Lemma batch_item_appends (fs_exists : string -> bool) (clients : dict client)
  (write_consensus : string -> string -> option exn)
  (write_report : option (string -> Report -> option exn))
  (image_path : string) :
  exists l, forall log,
    batch_item fs_exists clients write_consensus write_report image_path log
    = (item_outcome fs_exists clients write_consensus write_report image_path,
       log ++ l).
Proof.
  unfold item_outcome, batch_item, verify, bind, raise, ret.
  destruct (negb (fs_exists image_path)).
  - exists []. intro log. now rewrite app_nil_r.
  - destruct (run_engines_appends clients image_path []) as (r & l & H).
    exists l. intro log. rewrite (H log), (H []).
    destruct r as [e | results]; [reflexivity|].
    destruct (write_consensus image_path _); [reflexivity|].
    destruct write_report as [write|]; [|reflexivity].
    destruct (write image_path _); reflexivity.
Qed.

(** X16: the batch loop never raises: it logs one outcome per image, in the
    order of the images, and the outcome of an image, a result or the
    exception caught, is the one that processing this image alone gives,
    whatever happened to the other images. *)
Theorem batch_isolation (fs_exists : string -> bool) (clients : dict client)
  (write_consensus : string -> string -> option exn)
  (write_report : option (string -> Report -> option exn))
  (images : list string) (log : list call) :
  exists l,
    batch fs_exists clients write_consensus write_report images log
    = (inr (map (fun image_path =>
                   (image_path,
                    item_outcome fs_exists clients write_consensus
                      write_report image_path))
                images),
       log ++ l).
Proof.
  revert log. induction images as [|image images IH]; intro log; simpl.
  - exists []. unfold ret. now rewrite app_nil_r.
  - destruct (batch_item_appends fs_exists clients write_consensus
                write_report image) as (l1 & H1).
    destruct (IH (log ++ l1)) as (l2 & H2).
    exists (l1 ++ l2). unfold bind, try_except, ret. rewrite H1.
    destruct (item_outcome fs_exists clients write_consensus write_report image);
      rewrite H2, <- app_assoc; reflexivity.
Qed.

(** ** The engines named on the command line *)

Lemma split_on_nonempty (sep : ascii) (s : string) :
  forall cur, split_on sep cur s <> [].
Proof.
  induction s as [|c s IH]; intro cur; simpl; [discriminate|].
  destruct (Ascii.eqb c sep); [discriminate | apply IH].
Qed.

(** X17: when [main] accepts the value of [--engines], the list of names is
    not empty and holds only docai, vision, claude and gpt, and the engines
    of the verification are exactly the named ones that have credentials,
    in the order vision, docai, claude, gpt. *)
Theorem main_engines (engines : string) :
  unknown_engine (parse_engines engines) = None ->
  parse_engines engines <> []
  /\ (forall e, In e (parse_engines engines) -> In e valid_engines)
  /\ forall v d c g,
       keys (main_clients v d c g (parse_engines engines))
       = map fst (filter (fun p => snd p
                                   && contains (fst p) (parse_engines engines))
                    (offered v d c g)).
Proof.
  intro H.
  assert (Hne : parse_engines engines <> []).
  { unfold parse_engines. intro E. apply map_eq_nil in E.
    exact (split_on_nonempty _ _ _ E). }
  split; [exact Hne|]. split.
  - intros e He. unfold unknown_engine in H.
    pose proof (find_none _ _ H e He) as Hv. apply negb_false_iff in Hv.
    now apply contains_In.
  - intros v d c g. unfold main_clients, configured_clients, add_client, offered.
    destruct (parse_engines engines) as [|e es]; [congruence|].
    cbn -[contains].
    destruct (contains "vision" (e :: es)) eqn:Ev,
      (contains "docai" (e :: es)) eqn:Ed,
      (contains "claude" (e :: es)) eqn:Ec,
      (contains "gpt" (e :: es)) eqn:Eg;
      destruct v, d, c, g; cbn -[contains];
      repeat match goal with
             | H : contains ?a ?b = _ |- context [contains ?a ?b] => rewrite H
             end; reflexivity.
Qed.

Lemma main_engines_witness :
  unknown_engine (parse_engines "gpt, docai") = None
  /\ keys (main_clients (Some (broken_client "v")) (Some (broken_client "d"))
             None (Some (broken_client "g")) (parse_engines "gpt, docai"))
     = ["docai"; "gpt"].
Proof.
  assert (H : unknown_engine (parse_engines "gpt, docai") = None)
    by reflexivity.
  split; [exact H|].
  destruct (main_engines "gpt, docai" H) as (_ & _ & Hk).
  rewrite Hk. reflexivity.
Defined.

(** ** Routing in [OCRProcessor.process] *)



(** X19: for an existing file of a supported type, automatic routing uses
    the only configured client without any detection call; with both
    clients it asks Vision for the handwriting ratio once and then invokes
    Document AI when the ratio exceeds 0.30, Vision otherwise or when the
    detection fails; with no client it raises ValueError.  A named engine
    other than documentai is routed to Vision. *)
Theorem process_routing {R : Type} (fs_exists : string -> bool)
  (image_path : string) (language_hints : option (list string))
  (log : list call) :
  fs_exists image_path = true ->
  mem (lower (path_suffix image_path)) SUPPORTED_TYPES = true ->
  (forall dc,
     process fs_exists (mkOCRProcessor (R := R) None (Some dc)) image_path
       "auto" language_hints log
     = (dc image_path language_hints, log ++ [("documentai", image_path)]))
  /\ (forall vc : VisionAPIClient R,
        process fs_exists (mkOCRProcessor (Some vc) None) image_path
          "auto" language_hints log
        = (vision_extract_text vc image_path language_hints,
           log ++ [("vision", image_path)]))
  /\ process fs_exists (mkOCRProcessor (R := R) None None) image_path
       "auto" language_hints log
     = (inl (Exn "ValueError"
               "Vision API not configured. Set GOOGLE_API_KEY"), log)
  /\ (forall (vc : VisionAPIClient R) dc,
        process fs_exists (mkOCRProcessor (Some vc) (Some dc)) image_path
          "auto" language_hints log
        = match detect_handwriting_ratio vc image_path with
          | inr ratio =>
              if Qgt_bool ratio HANDWRITING_THRESHOLD then
                (dc image_path language_hints,
                 log ++ [("detect_handwriting_ratio", image_path);
                         ("documentai", image_path)])
              else
                (vision_extract_text vc image_path language_hints,
                 log ++ [("detect_handwriting_ratio", image_path);
                         ("vision", image_path)])
          | inl _ =>
              (vision_extract_text vc image_path language_hints,
               log ++ [("detect_handwriting_ratio", image_path);
                       ("vision", image_path)])
          end)
  /\ (forall (vc : VisionAPIClient R) odc engine,
        engine <> "auto" -> engine <> "documentai" ->
        process fs_exists (mkOCRProcessor (Some vc) odc) image_path
          engine language_hints log
        = (vision_extract_text vc image_path language_hints,
           log ++ [("vision", image_path)])).
Proof.
  intros Hex Hs.
  assert (Hpre : forall (p : OCRProcessor R) engine,
            process fs_exists p image_path engine language_hints log
            = (engine' <- (if String.eqb engine "auto"
                           then _detect_best_engine p image_path
                           else ret engine) ;;
               if String.eqb engine' "documentai" then
                 match documentai_client p with
                 | None =>
                     raise (Exn "ValueError"
                              ("Document AI not configured. Set "
                               ++ "GOOGLE_APPLICATION_CREDENTIALS, "
                               ++ "DOCUMENTAI_PROJECT_ID, and DOCUMENTAI_PROCESSOR_ID")%string)
                 | Some c =>
                     invoke "documentai" (fun path => c path language_hints)
                       image_path
                 end
               else
                 match vision_client p with
                 | None =>
                     raise (Exn "ValueError"
                              "Vision API not configured. Set GOOGLE_API_KEY")
                 | Some vc =>
                     invoke "vision"
                       (fun path => vision_extract_text vc path language_hints)
                       image_path
                 end) log).
  { intros p engine. unfold process. rewrite Hex, Hs. reflexivity. }
  split; [|split; [|split; [|split]]].
  - intro dc. rewrite Hpre. reflexivity.
  - intro vc. rewrite Hpre. reflexivity.
  - rewrite Hpre. reflexivity.
  - intros vc dc. rewrite Hpre.
    unfold bind, _detect_best_engine, try_except, invoke, ret.
    cbn [vision_client documentai_client String.eqb].
    change ("auto" =? "auto")%string with true. cbn iota.
    destruct (detect_handwriting_ratio vc image_path) as [e | ratio];
      cbn; [now rewrite <- app_assoc|].
    destruct (Qgt_bool ratio HANDWRITING_THRESHOLD); cbn;
      now rewrite <- app_assoc.
  - intros vc odc engine Ha Hd. rewrite Hpre.
    apply String.eqb_neq in Ha, Hd.
    unfold bind, ret, invoke. rewrite Ha. cbn beta iota. rewrite Hd.
    reflexivity.
Qed.

Lemma process_routing_witness :
  let vc := mkVisionAPIClient
              (fun _ _ => inr (ok "vision" "typed" 0.9))
              (fun _ => inr 0.5%Q) in
  let dc := fun (_ : string) (_ : option (list string)) =>
              inr (ok "documentai" "handwritten" 0.8) : exn + EngineResult in
  all_files "letter.jpg" = true
  /\ mem (lower (path_suffix "letter.jpg")) SUPPORTED_TYPES = true
  /\ process all_files (mkOCRProcessor (Some vc) (Some dc)) "letter.jpg"
       "auto" None []
     = (inr (ok "documentai" "handwritten" 0.8),
        [("detect_handwriting_ratio", "letter.jpg");
         ("documentai", "letter.jpg")]).
Proof.
  intros vc dc. split; [reflexivity|]. split; [reflexivity|].
  destruct (@process_routing EngineResult all_files "letter.jpg" None []
              eq_refl eq_refl) as (_ & _ & _ & H & _).
  rewrite (H vc dc). reflexivity.
Defined.
